(** * Cityscope posts: the post aggregate and its reaction state machine

    A shallow embedding of [backend/models/Post.js] and of the route
    handlers of [backend/routes/posts.js].

    - The [posts] collection is a finite map from [_id] to document.
    - A handler is a function from the store and the request to the
      response and the store it leaves behind.
    - What the route takes from its environment is an argument of the
      handler: the authenticated user ([req.user._id], set by the [auth]
      middleware), the clock ([new Date()], the [timestamps] option), the
      [_id] given to a new document, the outcome of the Cloudinary upload.
    - [populate] only resolves display fields of the referenced users; the
      references themselves are what the handlers compare and store, and
      they are kept as they are.
    - The route parameter [:id] is taken to be a well-formed ObjectId, and
      the database to be reachable. *)

From Stdlib Require Import ZArith Lia Ascii String.
From stdpp Require Import gmap list sorting strings.

(** ** JavaScript values *)

(** A JavaScript string is a sequence of UTF-16 code units; [s.length]
    counts them. *)
Definition code_unit := N.
Definition jsstring := list code_unit.

(** A string literal of the source. *)
Definition lit (s : string) : jsstring :=
  (λ a, N_of_ascii a) <$> list_ascii_of_string s.

(** A field of [req.body]: [None] is [undefined]. The model follows the
    routes on fields that are strings or absent; the other JSON values a
    body can carry (numbers, arrays, objects) are outside it. *)
Definition field := option jsstring.

(** [!v] on a body field: [undefined] and the empty string are falsy. *)
Definition js_not (v : field) : bool :=
  match v with
  | None | Some [] => true
  | Some (_ :: _) => false
  end.

(** WhiteSpace and LineTerminator code points, the ones
    [String.prototype.trim] strips. *)
Definition is_whitespace (c : code_unit) : bool :=
  bool_decide (c ∈ [0x09; 0x0A; 0x0B; 0x0C; 0x0D; 0x20; 0xA0; 0x1680;
                    0x2000; 0x2001; 0x2002; 0x2003; 0x2004; 0x2005; 0x2006;
                    0x2007; 0x2008; 0x2009; 0x200A; 0x2028; 0x2029; 0x202F;
                    0x205F; 0x3000; 0xFEFF]%N).

Fixpoint trimStart (s : jsstring) : jsstring :=
  match s with
  | c :: s' => if is_whitespace c then trimStart s' else s
  | [] => []
  end.

Definition trimEnd (s : jsstring) : jsstring := reverse (trimStart (reverse s)).

Definition trim (s : jsstring) : jsstring := trimEnd (trimStart s).

(** ** The Post model (models/Post.js) *)

Abbreviation ObjectId := N (only parsing).
Abbreviation Date := Z (only parsing).

Module Reply.
Record t := mk {
  author : ObjectId;
  content : jsstring;
  createdAt : Date
}.
End Reply.

Record Post := mkPost {
  author : ObjectId;
  content : jsstring;
  postType : jsstring;
  location : jsstring;
  imageUrl : option jsstring;
  likes : list ObjectId;
  dislikes : list ObjectId;
  replies : list Reply.t;
  createdAt : Date
}.

Definition set_content (c : jsstring) (p : Post) : Post :=
  mkPost (author p) c (postType p) (location p) (imageUrl p)
         (likes p) (dislikes p) (replies p) (createdAt p).

Definition set_likes (l : list ObjectId) (p : Post) : Post :=
  mkPost (author p) (content p) (postType p) (location p) (imageUrl p)
         l (dislikes p) (replies p) (createdAt p).

Definition set_dislikes (l : list ObjectId) (p : Post) : Post :=
  mkPost (author p) (content p) (postType p) (location p) (imageUrl p)
         (likes p) l (replies p) (createdAt p).

Definition set_replies (l : list Reply.t) (p : Post) : Post :=
  mkPost (author p) (content p) (postType p) (location p) (imageUrl p)
         (likes p) (dislikes p) l (createdAt p).

(** The collection: documents by [_id]. *)
Abbreviation store := (gmap N Post) (only parsing).

(** ** Responses *)

Inductive body :=
| Message (message : string)
| PostJson (message : string) (id : ObjectId) (post : Post)
| PostDoc (id : ObjectId) (post : Post)
| PostsPage (posts : list (ObjectId * Post))
            (totalPages currentPage total : Z)
| ReplyJson (message : string) (reply : option Reply.t)
| RepliesJson (replies : list Reply.t)
| ReactionJson (message : string) (likes dislikes : nat)
               (userReaction : option jsstring).

(** [res.status(s).json(b)]; [res.json(b)] has status 200. *)
Record response := Res { status : Z; json : body }.

(** ** Reactions *)

(** [ids.includes(userId)]: a Mongoose array of ObjectIds compares them by
    value, as the [toString] comparison of the filters below does. *)
Definition includes (userId : ObjectId) (ids : list ObjectId) : bool :=
  bool_decide (userId ∈ ids).

(** [ids.filter(id => id.toString() !== userId.toString())] *)
Definition without (userId : ObjectId) (ids : list ObjectId) : list ObjectId :=
  filter (λ id, id ≠ userId) ids.

(** [['like', 'dislike'].includes(type)] *)
Definition valid_reaction (type : field) : bool :=
  match type with
  | Some t => bool_decide (t ∈ [lit "like"; lit "dislike"])
  | None => false
  end.

(** The body of POST /:id/reactions between [findById] and [save]. *)
Definition toggle (type : field) (userId : ObjectId) (post : Post) : Post :=
  let hasLiked := includes userId (likes post) in
  let hasDisliked := includes userId (dislikes post) in
  if bool_decide (type = Some (lit "like")) then
    if hasLiked then
      set_likes (without userId (likes post)) post
    else
      let post := set_likes (likes post ++ [userId]) post in
      if hasDisliked then
        set_dislikes (without userId (dislikes post)) post
      else post
  else
    if hasDisliked then
      set_dislikes (without userId (dislikes post)) post
    else
      let post := set_dislikes (dislikes post ++ [userId]) post in
      if hasLiked then
        set_likes (without userId (likes post)) post
      else post.

(** [post.likes.includes(userId) ? 'like' :
     post.dislikes.includes(userId) ? 'dislike' : null] *)
Definition userReaction (userId : ObjectId) (post : Post) : option jsstring :=
  if includes userId (likes post) then Some (lit "like")
  else if includes userId (dislikes post) then Some (lit "dislike")
  else None.

(** POST /:id/reactions *)
Definition setReaction (st : store) (user id : ObjectId) (type : field)
  : response * store :=
  if negb (valid_reaction type) then
    (Res 400 (Message "Invalid reaction type"), st)
  else
    match st !! id with
    | None => (Res 404 (Message "Post not found"), st)
    | Some post =>
        let post := toggle type user post in
        (Res 200 (ReactionJson "Reaction updated successfully"
                    (length (likes post)) (length (dislikes post))
                    (userReaction user post)),
         <[id := post]> st)
    end.

(** The body of DELETE /:id/reactions between [findById] and [save]. *)
Definition clear (userId : ObjectId) (post : Post) : Post :=
  let post := set_likes (without userId (likes post)) post in
  set_dislikes (without userId (dislikes post)) post.

(** DELETE /:id/reactions *)
Definition clearReaction (st : store) (user id : ObjectId)
  : response * store :=
  match st !! id with
  | None => (Res 404 (Message "Post not found"), st)
  | Some post =>
      let post := clear user post in
      (Res 200 (ReactionJson "Reaction removed successfully"
                  (length (likes post)) (length (dislikes post)) None),
       <[id := post]> st)
  end.

(** ** Schema validation and persistence *)

Definition validPostTypes : list jsstring :=
  [lit "recommendation"; lit "help"; lit "update"; lit "event"].

(** [content: { type: String, required: true, maxlength: 280 }] *)
Definition content_ok (c : jsstring) : bool :=
  negb (bool_decide (c = [])) && Nat.leb (length c) 280.

(** [postType: { required: true, enum: [...] }] *)
Definition postType_ok (t : jsstring) : bool :=
  bool_decide (t ∈ validPostTypes).

(** [location: { type: String, required: true, trim: true }]: the setter
    has trimmed the value before the validator sees it. *)
Definition location_ok (l : jsstring) : bool :=
  negb (bool_decide (l = [])).

(** Validators of the reply subdocument. *)
Definition reply_ok (r : Reply.t) : bool := content_ok (Reply.content r).

(** [new Post({ author, content, postType, location, imageUrl })]: the
    [trim] setter runs on [location]; the arrays default to empty;
    [createdAt] is the time of the insertion. *)
Definition new_Post (author : ObjectId) (content postType location : jsstring)
    (imageUrl : option jsstring) (now : Date) : Post :=
  mkPost author content postType (trim location) imageUrl [] [] [] now.

(** [save] of a new document: validation, then the insertion, which the
    unique index on [_id] refuses for an id already there. [None] is the
    exception the route catches. *)
Definition insert_new (st : store) (id : ObjectId) (post : Post)
  : option store :=
  if content_ok (content post) && postType_ok (postType post)
     && location_ok (location post) then
    match st !! id with
    | None => Some (<[id := post]> st)
    | Some _ => None
    end
  else None.

(** ** Post routes *)

(** [req.file] and what Cloudinary answers for it. *)
Inductive upload :=
| NoFile
| Uploaded (secure_url : jsstring)
| UploadError.

(** POST / *)
Definition createPost (st : store) (user : ObjectId)
    (content postType location : field) (file : upload)
    (new_id : ObjectId) (now : Date) : response * store :=
  if js_not content || js_not postType || js_not location then
    (Res 400 (Message "Please provide all required fields"), st)
  else
    let content := default [] content in
    let postType := default [] postType in
    let location := default [] location in
    if Nat.ltb 280 (length content) then
      (Res 400 (Message "Content must be 280 characters or less"), st)
    else if negb (bool_decide (postType ∈ validPostTypes)) then
      (Res 400 (Message "Invalid post type"), st)
    else
      match file with
      | UploadError => (Res 500 (Message "Error uploading image"), st)
      | _ =>
          let imageUrl :=
            match file with Uploaded url => Some url | _ => None end in
          let post := new_Post user content postType location imageUrl now in
          match insert_new st new_id post with
          | Some st' =>
              (Res 201 (PostJson "Post created successfully" new_id post), st')
          | None =>
              (Res 500 (Message "Server error while creating post"), st)
          end
      end.

(** GET /:id *)
Definition getPost (st : store) (id : ObjectId) : response :=
  match st !! id with
  | None => Res 404 (Message "Post not found")
  | Some post => Res 200 (PostDoc id post)
  end.

(** PUT /:id *)
Definition updatePost (st : store) (user id : ObjectId) (content : field)
  : response * store :=
  if js_not content then
    (Res 400 (Message "Content is required"), st)
  else
    let content := default [] content in
    if Nat.ltb 280 (length content) then
      (Res 400 (Message "Content must be 280 characters or less"), st)
    else
      match st !! id with
      | None => (Res 404 (Message "Post not found"), st)
      | Some post =>
          if negb (bool_decide (author post = user)) then
            (Res 403 (Message "Not authorized to edit this post"), st)
          else
            let post := set_content content post in
            if content_ok content then
              (Res 200 (PostJson "Post updated successfully" id post),
               <[id := post]> st)
            else
              (Res 500 (Message "Server error while updating post"), st)
      end.

(** DELETE /:id *)
Definition deletePost (st : store) (user id : ObjectId) : response * store :=
  match st !! id with
  | None => (Res 404 (Message "Post not found"), st)
  | Some post =>
      if negb (bool_decide (author post = user)) then
        (Res 403 (Message "Not authorized to delete this post"), st)
      else
        (Res 200 (Message "Post deleted successfully"), delete id st)
  end.

(** POST /:id/replies *)
Definition addReply (st : store) (user id : ObjectId) (content : field)
    (now : Date) : response * store :=
  if js_not content then
    (Res 400 (Message "Reply content is required"), st)
  else
    let content := default [] content in
    if Nat.ltb 280 (length content) then
      (Res 400 (Message "Reply must be 280 characters or less"), st)
    else
      match st !! id with
      | None => (Res 404 (Message "Post not found"), st)
      | Some post =>
          let reply := Reply.mk user content now in
          let post := set_replies (replies post ++ [reply]) post in
          if reply_ok reply then
            (Res 201 (ReplyJson "Reply added successfully"
                        (last (replies post))),
             <[id := post]> st)
          else
            (Res 500 (Message "Server error while adding reply"), st)
      end.

(** GET /:id/replies *)
Definition listReplies (st : store) (id : ObjectId) : response :=
  match st !! id with
  | None => Res 404 (Message "Post not found")
  | Some post => Res 200 (RepliesJson (replies post))
  end.

(** ** Listing *)

(** The filter object handed to [Post.find]: a compiled case-insensitive
    regular expression on [location] (a predicate on strings) and an exact
    [postType], each optional. *)
Record query := Query {
  q_location : option (jsstring → bool);
  q_postType : option jsstring
}.

Definition matches (q : query) (d : ObjectId * Post) : bool :=
  match q_location q with
  | Some re => re (location d.2)
  | None => true
  end &&
  match q_postType q with
  | Some t => bool_decide (postType d.2 = t)
  | None => true
  end.

(** [Post.find(filter)], before any ordering. *)
Definition find (q : query) (st : store) : list (ObjectId * Post) :=
  filter (λ d, matches q d) (map_to_list st).

(** [Post.countDocuments(filter)] *)
Definition countDocuments (q : query) (st : store) : Z :=
  Z.of_nat (length (find q st)).

(** [a] may come before [b] under [.sort({ createdAt: -1 })]. *)
Definition newer_first (a b : ObjectId * Post) : Prop :=
  (createdAt b.2 ≤ createdAt a.2)%Z.

(** What the database promises for [.sort({ createdAt: -1 })]: the same
    documents, newest first. The order among documents of equal
    [createdAt] is the database's choice. An engine stands for what the
    database does in one query: two queries, even of one route on one
    collection, may be served by different engines. *)
Class QueryEngine := {
  sort_createdAt_desc : list (ObjectId * Post) → list (ObjectId * Post);
  sort_perm : ∀ l, sort_createdAt_desc l ≡ₚ l;
  sort_sorted : ∀ l, StronglySorted newer_first (sort_createdAt_desc l)
}.

(** [Math.ceil(a / b)] on a count [a] and a positive [b]. *)
Definition Math_ceil_div (a b : Z) : Z :=
  (if a mod b =? 0 then a / b else a / b + 1)%Z.

(** GET / from [Post.find(filter)] on; [page] and [limit] are the numbers
    the query parameters stand for. The model follows the route for
    [page ≥ 1] and [limit ≥ 1]. *)
Definition listPosts `{QueryEngine} (st : store) (q : query) (page limit : Z)
  : response :=
  let posts :=
    take (Z.to_nat (limit * 1))
      (drop (Z.to_nat ((page - 1) * limit))
         (sort_createdAt_desc (find q st))) in
  let total := countDocuments q st in
  Res 200 (PostsPage posts (Math_ceil_div total limit) page total).

(** An engine: merge sort on [createdAt], newest first. *)
#[global] Instance newer_first_dec a b : Decision (newer_first a b).
Proof. unfold newer_first. apply _. Defined.

#[global] Instance newer_first_total : Total newer_first.
Proof. intros a b. unfold newer_first. lia. Qed.

#[global] Instance newer_first_trans : Transitive newer_first.
Proof. intros a b c. unfold newer_first. lia. Qed.

Definition merge_engine : QueryEngine :=
  {| sort_createdAt_desc := merge_sort newer_first;
     sort_perm := merge_sort_Permutation newer_first;
     sort_sorted := StronglySorted_merge_sort newer_first |}.

(** Another engine: the same merge sort, reading the documents in the
    opposite order. *)
Definition reversed_engine : QueryEngine.
Proof.
  refine (Build_QueryEngine (λ l, merge_sort newer_first (reverse l)) _ _).
  - intros l. rewrite merge_sort_Permutation. apply reverse_Permutation.
  - intros l. exact (StronglySorted_merge_sort newer_first (reverse l)).
Defined.

(** ** The reaction state machine of the specification *)

Inductive kind := Like | Dislike.

Definition kind_name (k : kind) : jsstring :=
  match k with Like => lit "like" | Dislike => lit "dislike" end.

Inductive reaction := NoReaction | Liked | Disliked.

(** The transition table, as the specification gives it. *)
Definition transition (s : reaction) (k : kind) : reaction :=
  match s, k with
  | NoReaction, Like => Liked
  | NoReaction, Dislike => Disliked
  | Liked, Like => NoReaction
  | Liked, Dislike => Disliked
  | Disliked, Like => Liked
  | Disliked, Dislike => NoReaction
  end.

(** How a response spells a state. *)
Definition reaction_name (s : reaction) : option jsstring :=
  match s with
  | NoReaction => None
  | Liked => Some (lit "like")
  | Disliked => Some (lit "dislike")
  end.

(** The effective reaction of a user on a post. *)
Definition state_of (userId : ObjectId) (post : Post) : reaction :=
  if includes userId (likes post) then Liked
  else if includes userId (dislikes post) then Disliked
  else NoReaction.

(** The effective reaction of a user on the stored post [id]. *)
Definition reaction_in (st : store) (id userId : ObjectId) : option reaction :=
  state_of userId <$> st !! id.

(** [likes ∩ dislikes = ∅] *)
Definition disjoint_reactions (post : Post) : Prop :=
  ∀ u, ¬ (u ∈ likes post ∧ u ∈ dislikes post).

(** Reaction requests against one post. *)
Inductive reaction_op :=
| SetReaction (user : ObjectId) (type : field)
| ClearReaction (user : ObjectId).

Definition run_op (id : ObjectId) (st : store) (op : reaction_op) : store :=
  match op with
  | SetReaction user type => (setReaction st user id type).2
  | ClearReaction user => (clearReaction st user id).2
  end.

Definition run_ops (id : ObjectId) (st : store) (ops : list reaction_op)
  : store :=
  foldl (run_op id) st ops.

(** A payload the route refuses: absent, empty or longer than 280. *)
Definition refused_content (content : field) : Prop :=
  js_not content = true ∨ 280 < length (default [] content).

(** ** The mutating routes of the router *)

(** A request to one of the six routes that write: POST /, PUT /:id,
    DELETE /:id, POST /:id/replies, POST /:id/reactions and
    DELETE /:id/reactions, with what each reads from the request and from
    its environment. *)
Inductive mutation :=
| Create (user : ObjectId) (content postType location : field)
         (file : upload) (new_id : ObjectId) (now : Date)
| Update (user id : ObjectId) (content : field)
| Delete (user id : ObjectId)
| AddReply (user id : ObjectId) (content : field) (now : Date)
| React (user id : ObjectId) (type : field)
| Unreact (user id : ObjectId).

Definition perform (st : store) (m : mutation) : response * store :=
  match m with
  | Create user content postType location file new_id now =>
      createPost st user content postType location file new_id now
  | Update user id content => updatePost st user id content
  | Delete user id => deletePost st user id
  | AddReply user id content now => addReply st user id content now
  | React user id type => setReaction st user id type
  | Unreact user id => clearReaction st user id
  end.

(** The document a request is about. *)
Definition target (m : mutation) : ObjectId :=
  match m with
  | Create _ _ _ _ _ new_id _ => new_id
  | Update _ id _ | Delete _ id | AddReply _ id _ _
  | React _ id _ | Unreact _ id => id
  end.

(** The authenticated user who makes it. *)
Definition actor (m : mutation) : ObjectId :=
  match m with
  | Create user _ _ _ _ _ _ | Update user _ _ | Delete user _
  | AddReply user _ _ _ | React user _ _ | Unreact user _ => user
  end.

(** [m] is a DELETE /:id of the document [id]. *)
Definition deletes (id : ObjectId) (m : mutation) : Prop :=
  match m with Delete _ id' => id' = id | _ => False end.

(** The store after a run of requests, one after the other. *)
Definition run (st : store) (ms : list mutation) : store :=
  foldl (λ st m, (perform st m).2) st ms.

(** What the schema of models/Post.js asks of a stored document. *)
Definition valid_post (p : Post) : Prop :=
  content_ok (content p) = true ∧ postType_ok (postType p) = true ∧
  location_ok (location p) = true ∧
  Forall (λ r, reply_ok r = true) (replies p).

Definition valid_store (st : store) : Prop :=
  ∀ id p, st !! id = Some p → valid_post p.

(** [p'] is a later version of the document [p]: same author, type,
    location, image and creation time, and the replies of [p] are still
    there, in place, at the front. *)
Definition later_version (p p' : Post) : Prop :=
  author p' = author p ∧ postType p' = postType p ∧
  location p' = location p ∧ imageUrl p' = imageUrl p ∧
  createdAt p' = createdAt p ∧ replies p `prefix_of` replies p'.

(** The posts of a listing response. *)
Definition posts_of (r : response) : list (ObjectId * Post) :=
  match json r with
  | PostsPage posts _ _ _ => posts
  | _ => []
  end.

(** Equality of documents is decidable. *)
#[global] Instance Reply_eq_dec : EqDecision Reply.t.
Proof. solve_decision. Defined.

#[global] Instance Post_eq_dec : EqDecision Post.
Proof. solve_decision. Defined.

(** One for the state counted, none for the others. *)
Definition one_if (s counted : reaction) : nat :=
  match s, counted with
  | Liked, Liked | Disliked, Disliked => 1
  | _, _ => 0
  end.

(** A reply request with a content that passes the route's checks. *)
Record reply_request := ReplyRequest {
  rr_user : ObjectId;
  rr_content : jsstring;
  rr_now : Date
}.

Definition reply_of (r : reply_request) : Reply.t :=
  Reply.mk (rr_user r) (rr_content r) (rr_now r).

Definition reply_mutation (id : ObjectId) (r : reply_request) : mutation :=
  AddReply (rr_user r) id (Some (rr_content r)) (rr_now r).

(** A string of whitespace only. *)
Definition blank (s : jsstring) : Prop :=
  Forall (λ c, is_whitespace c = true) s.

(** ** User routes (routes/users.js) *)

(** The fields of a user document that the routes read. *)
Module User.
Record t := mk {
  username : jsstring;
  email : jsstring;
  bio : field;
  location : field;
  createdAt : Date
}.
End User.

Inductive users_body :=
| UsersMessage (message : string)
| ProfileJson (id : ObjectId) (username : jsstring) (bio location : field)
              (createdAt : Date) (posts : list (ObjectId * Post))
              (postCount : nat)
| UserPostsPage (posts : list (ObjectId * Post))
                (totalPages currentPage total : Z)
| UpdatedJson (message : string) (id : ObjectId) (username email : jsstring)
              (bio location : field).

Record users_response := UsersRes { users_status : Z; users_json : users_body }.

(** [Post.find({ author: user._id })], before any ordering. *)
Definition find_author (uid : ObjectId) (st : store) : list (ObjectId * Post) :=
  filter (λ d, author d.2 = uid) (map_to_list st).

(** GET /:username. [findOne] is [User.findOne({ username })] on the users
    collection. *)
Definition getProfile `{QueryEngine}
    (findOne : jsstring → option (ObjectId * User.t)) (st : store)
    (username : jsstring) : users_response :=
  match findOne username with
  | None => UsersRes 404 (UsersMessage "User not found")
  | Some (uid, user) =>
      let posts := take 20 (sort_createdAt_desc (find_author uid st)) in
      UsersRes 200
        (ProfileJson uid (User.username user) (User.bio user)
           (User.location user) (User.createdAt user) posts (length posts))
  end.

(** GET /:username/posts. The model follows the route for [page ≥ 1] and
    [limit ≥ 1]. *)
Definition listUserPosts `{QueryEngine}
    (findOne : jsstring → option (ObjectId * User.t)) (st : store)
    (username : jsstring) (page limit : Z) : users_response :=
  match findOne username with
  | None => UsersRes 404 (UsersMessage "User not found")
  | Some (uid, user) =>
      let posts :=
        take (Z.to_nat (limit * 1))
          (drop (Z.to_nat ((page - 1) * limit))
             (sort_createdAt_desc (find_author uid st))) in
      let total := Z.of_nat (length (find_author uid st)) in
      UsersRes 200
        (UserPostsPage posts (Math_ceil_div total limit) page total)
  end.

(** The update document built by PUT /:username: [None] is a key that is
    not set. *)
Record update_data := UpdateData { set_bio : field; set_location : field }.

(** PUT /:username. [req_user] is the authenticated user, [update] is
    [User.findByIdAndUpdate(id, updateData, { new: true, runValidators:
    true })]: [None] when it throws, [Some None] when no document has the
    id. *)
Definition updateProfile
    (update : ObjectId → update_data → option (option User.t))
    (req_user : ObjectId * User.t) (username : jsstring)
    (bio location : field) : users_response :=
  if negb (bool_decide (username = User.username req_user.2)) then
    UsersRes 403 (UsersMessage "Not authorized to update this profile")
  else if negb (js_not bio) && Nat.ltb 160 (length (default [] bio)) then
    UsersRes 400 (UsersMessage "Bio must be 160 characters or less")
  else
    let updateData :=
      UpdateData bio (if js_not location then None else location) in
    match update req_user.1 updateData with
    | Some (Some user) =>
        UsersRes 200
          (UpdatedJson "Profile updated successfully" req_user.1
             (User.username user) (User.email user) (User.bio user)
             (User.location user))
    | _ => UsersRes 500 (UsersMessage "Server error while updating profile")
    end.

(** ** Sample data *)

(** A post that user 5 has liked. *)
Definition liked_post : Post :=
  mkPost 1 (lit "Street fair on Sunday") (lit "event") (lit "Pune") None
         [5%N] [] [] 1000.

Definition liked_store : gmap N Post := {[ 9%N := liked_post ]}.

(** Forty-five posts, one per millisecond. *)
Definition sample_post (i : nat) : Post :=
  mkPost 1 (lit "Road closed") (lit "update") (lit "Pune") None [] [] []
         (Z.of_nat i).

Definition forty_five : gmap N Post :=
  list_to_map ((λ i, (N.of_nat i, sample_post i)) <$> seq 0 45).

Definition everything : query := Query None None.

(** Two posts created in the same millisecond. *)
Definition tied_store : gmap N Post :=
  {[ 1%N := sample_post 7; 2%N := sample_post 7 ]}.

(** Two posts created a millisecond apart. *)
Definition untied_store : gmap N Post :=
  {[ 1%N := sample_post 7; 2%N := sample_post 8 ]}.

(** Requests by users 2 and 7 against post 9, none of them its DELETE. *)
Definition visitors_requests : list mutation :=
  [React 7 9 (Some (lit "like"));
   AddReply 2 9 (Some (lit "See you there")) 2000;
   Unreact 7 9;
   Update 2 9 (Some (lit "Mine now"));
   Create 2 (Some (lit "Another fair")) (Some (lit "event"))
          (Some (lit "Pune")) NoFile 9 3000;
   React 2 9 (Some (lit "dislike"))].

(** Three replies to post 9. *)
Definition three_replies : list reply_request :=
  [ReplyRequest 2 (lit "first") 2001;
   ReplyRequest 7 (lit "second") 2002;
   ReplyRequest 2 (lit "third") 2003].

(** The author of the sample posts, found under the name "asha". *)
Definition sample_user : User.t :=
  User.mk (lit "asha") (lit "asha@example.org") (Some (lit "Pune walks"))
          (Some (lit "Pune")) 500.

Definition sample_findOne (username : jsstring)
  : option (ObjectId * User.t) :=
  if bool_decide (username = lit "asha") then Some (1%N, sample_user)
  else None.

(** * Properties *)

(** ** Membership after [includes], [without] and [push] *)

Lemma includes_true u l : includes u l = true ↔ u ∈ l.
Proof. unfold includes. apply bool_decide_eq_true. Qed.

Lemma includes_false u l : includes u l = false ↔ u ∉ l.
Proof. unfold includes. apply bool_decide_eq_false. Qed.

Lemma elem_of_without v u l : v ∈ without u l ↔ v ∈ l ∧ v ≠ u.
Proof. unfold without. rewrite list_elem_of_filter. tauto. Qed.

Lemma not_elem_of_without u l : u ∉ without u l.
Proof. rewrite elem_of_without. tauto. Qed.

Lemma valid_reaction_kind k : valid_reaction (Some (kind_name k)) = true.
Proof. destruct k; reflexivity. Qed.

Lemma valid_reaction_inv type :
  valid_reaction type = true → ∃ k, type = Some (kind_name k).
Proof.
  destruct type as [t|]; [|discriminate]. simpl.
  rewrite bool_decide_eq_true, !elem_of_cons, elem_of_nil.
  intros [->|[->|[]]]; [by exists Like | by exists Dislike].
Qed.

(** Turn the outcomes of [includes] in the context into memberships. *)
Ltac membership :=
  repeat match goal with
    | H : includes _ _ = true |- _ => apply includes_true in H
    | H : includes _ _ = false |- _ => apply includes_false in H
    end.

(** ** Disjointness is preserved by each request *)

Lemma toggle_disjoint type user post :
  disjoint_reactions post → disjoint_reactions (toggle type user post).
Proof.
  unfold disjoint_reactions, toggle. intros Hd v.
  destruct (bool_decide (type = _));
    destruct (includes user (likes post)) eqn:Hl;
    destruct (includes user (dislikes post)) eqn:Hk; simpl;
    membership;
    rewrite ?elem_of_without, ?elem_of_app, ?list_elem_of_singleton;
    specialize (Hd v); intuition (subst; tauto).
Qed.

Lemma clear_removes user post :
  (user ∉ likes (clear user post)) ∧ (user ∉ dislikes (clear user post)).
Proof. split; apply not_elem_of_without. Qed.

Lemma clear_keeps_disjoint user post :
  disjoint_reactions post → disjoint_reactions (clear user post).
Proof.
  unfold disjoint_reactions, clear. intros Hd v. simpl.
  rewrite !elem_of_without. specialize (Hd v). tauto.
Qed.

Lemma run_op_disjoint id st op post :
  st !! id = Some post → disjoint_reactions post →
  ∃ post', run_op id st op !! id = Some post' ∧ disjoint_reactions post'.
Proof.
  intros Hget Hd. destruct op as [user type|user]; simpl.
  - unfold setReaction. destruct (valid_reaction type); simpl.
    + rewrite Hget. simpl. rewrite lookup_insert_eq.
      eauto using toggle_disjoint.
    + eauto.
  - unfold clearReaction. rewrite Hget. simpl. rewrite lookup_insert_eq.
    eauto using clear_keeps_disjoint.
Qed.

Lemma run_ops_disjoint id ops : ∀ st post,
  st !! id = Some post → disjoint_reactions post →
  ∃ post', run_ops id st ops !! id = Some post' ∧ disjoint_reactions post'.
Proof.
  induction ops as [|op ops IH]; intros st post Hget Hd; simpl.
  - eauto.
  - destruct (run_op_disjoint id st op post Hget Hd) as (post1 & Hget1 & Hd1).
    exact (IH _ _ Hget1 Hd1).
Qed.

(** C1. Whatever reaction requests are made against a post whose likes and
    dislikes are disjoint, by whichever users and with whatever [type], the
    post is still there after each of them and its likes and dislikes are
    still disjoint: no user is in both. *)
Theorem reactions_stay_disjoint id st post ops :
  st !! id = Some post → disjoint_reactions post →
  ∀ n, ∃ post',
    run_ops id st (take n ops) !! id = Some post' ∧
    disjoint_reactions post' ∧
    (∀ u, ¬ (u ∈ likes post' ∧ u ∈ dislikes post')).
Proof.
  intros Hget Hd n.
  destruct (run_ops_disjoint id (take n ops) st post Hget Hd)
    as (post' & Hget' & Hd').
  exists post'. split; [done|]. split; [done|]. exact Hd'.
Qed.

(** ** Clearing a reaction *)

Lemma clear_others user post v :
  v ≠ user →
  (v ∈ likes (clear user post) ↔ v ∈ likes post) ∧
  (v ∈ dislikes (clear user post) ↔ v ∈ dislikes post).
Proof. intros Hv. unfold clear. simpl. rewrite !elem_of_without. tauto. Qed.

Lemma state_of_absent user post :
  user ∉ likes post → user ∉ dislikes post → state_of user post = NoReaction.
Proof.
  intros Hl Hk. unfold state_of.
  apply includes_false in Hl. apply includes_false in Hk.
  by rewrite Hl, Hk.
Qed.

(** C6. DELETE /:id/reactions on a stored post answers 200 with the two
    counts of the saved post and [userReaction: null]; the saved post has
    the user in neither set, so the user's effective reaction is none
    whatever it was, and every other user is where they were. On an id with
    no post it answers 404 and leaves the store alone; that is its only
    failure. *)
Theorem clearReaction_spec st user id :
  match st !! id with
  | Some post =>
      ∃ post',
        clearReaction st user id =
          (Res 200 (ReactionJson "Reaction removed successfully"
                      (length (likes post')) (length (dislikes post')) None),
           <[id := post']> st) ∧
        (user ∉ likes post') ∧ (user ∉ dislikes post') ∧
        state_of user post' = NoReaction ∧
        reaction_in (clearReaction st user id).2 id user = Some NoReaction ∧
        userReaction user post' = None ∧
        (∀ v, v ≠ user →
              (v ∈ likes post' ↔ v ∈ likes post) ∧
              (v ∈ dislikes post' ↔ v ∈ dislikes post))
  | None =>
      clearReaction st user id = (Res 404 (Message "Post not found"), st)
  end.
Proof.
  unfold clearReaction. destruct (st !! id) as [post|] eqn:Hget; [|done].
  destruct (clear_removes user post) as [Hl Hk].
  exists (clear user post). split; [done|].
  split; [done|]. split; [done|].
  split; [by apply state_of_absent|].
  split.
  { unfold reaction_in. simpl. rewrite lookup_insert_eq. simpl.
    f_equal. by apply state_of_absent. }
  split.
  { unfold userReaction. apply includes_false in Hl, Hk. by rewrite Hl, Hk. }
  intros v Hv. by apply clear_others.
Qed.

(** ** Setting a reaction *)

Lemma toggle_like user post :
  toggle (Some (lit "like")) user post =
    if includes user (likes post) then
      set_likes (without user (likes post)) post
    else if includes user (dislikes post) then
      set_dislikes (without user (dislikes post))
        (set_likes (likes post ++ [user]) post)
    else set_likes (likes post ++ [user]) post.
Proof. unfold toggle. by rewrite bool_decide_eq_true_2. Qed.

Lemma toggle_dislike user post :
  toggle (Some (lit "dislike")) user post =
    if includes user (dislikes post) then
      set_dislikes (without user (dislikes post)) post
    else if includes user (likes post) then
      set_likes (without user (likes post))
        (set_dislikes (dislikes post ++ [user]) post)
    else set_dislikes (dislikes post ++ [user]) post.
Proof. unfold toggle. by rewrite bool_decide_eq_false_2. Qed.

Lemma state_of_Liked user post : user ∈ likes post → state_of user post = Liked.
Proof. intros H. unfold state_of. apply includes_true in H. by rewrite H. Qed.

Lemma state_of_Disliked user post :
  user ∉ likes post → user ∈ dislikes post → state_of user post = Disliked.
Proof.
  intros Hl Hk. unfold state_of.
  apply includes_false in Hl. apply includes_true in Hk. by rewrite Hl, Hk.
Qed.

(** Under disjointness the state says exactly where the user is. *)
Lemma state_of_spec user post :
  disjoint_reactions post →
  (state_of user post = Liked ↔ user ∈ likes post ∧ ¬ user ∈ dislikes post) ∧
  (state_of user post = Disliked ↔ user ∈ dislikes post ∧ ¬ user ∈ likes post) ∧
  (state_of user post = NoReaction ↔
     ¬ user ∈ likes post ∧ ¬ user ∈ dislikes post).
Proof.
  intros Hd. specialize (Hd user). unfold state_of.
  destruct (includes user (likes post)) eqn:Hl;
    destruct (includes user (dislikes post)) eqn:Hk;
    membership;
    repeat split; intros; try discriminate; tauto.
Qed.

Lemma userReaction_state user post :
  userReaction user post = reaction_name (state_of user post).
Proof.
  unfold userReaction, state_of.
  by destruct (includes user (likes post)), (includes user (dislikes post)).
Qed.

(** The code takes the step the table gives. *)
Lemma state_of_toggle user post k :
  disjoint_reactions post →
  state_of user (toggle (Some (kind_name k)) user post)
  = transition (state_of user post) k.
Proof.
  intros Hd. specialize (Hd user).
  destruct k; simpl; [rewrite toggle_like | rewrite toggle_dislike];
    unfold state_of at 2;
    destruct (includes user (likes post)) eqn:Hl;
    destruct (includes user (dislikes post)) eqn:Hk;
    membership; simpl;
    try tauto;
    first [ apply state_of_absent | apply state_of_Liked
          | apply state_of_Disliked ];
    simpl;
    rewrite ?elem_of_without, ?elem_of_app, ?list_elem_of_singleton;
    tauto.
Qed.

Lemma toggle_others type user post v :
  v ≠ user →
  (v ∈ likes (toggle type user post) ↔ v ∈ likes post) ∧
  (v ∈ dislikes (toggle type user post) ↔ v ∈ dislikes post).
Proof.
  intros Hv. unfold toggle.
  destruct (bool_decide (type = _));
    destruct (includes user (likes post));
    destruct (includes user (dislikes post)); simpl;
    rewrite ?elem_of_without, ?elem_of_app, ?list_elem_of_singleton;
    tauto.
Qed.

Lemma setReaction_found st user id post k :
  st !! id = Some post →
  setReaction st user id (Some (kind_name k)) =
    let post' := toggle (Some (kind_name k)) user post in
    (Res 200 (ReactionJson "Reaction updated successfully"
                (length (likes post')) (length (dislikes post'))
                (userReaction user post')),
     <[id := post']> st).
Proof.
  intros Hget. unfold setReaction.
  rewrite valid_reaction_kind. simpl. by rewrite Hget.
Qed.

(** A run of valid reaction requests by one user follows the table from
    start to end. *)
Lemma run_kinds_state id user ks : ∀ st post,
  st !! id = Some post → disjoint_reactions post →
  ∃ post',
    run_ops id st ((λ k, SetReaction user (Some (kind_name k))) <$> ks) !! id
      = Some post' ∧
    disjoint_reactions post' ∧
    state_of user post' = foldl transition (state_of user post) ks.
Proof.
  induction ks as [|k ks IH]; intros st post Hget Hd; simpl.
  - eauto.
  - rewrite (setReaction_found st user id post k Hget). simpl.
    rewrite <-(state_of_toggle user post k Hd).
    apply IH; [apply lookup_insert_eq | by apply toggle_disjoint].
Qed.

Lemma two_requests st user id post k1 k2 :
  st !! id = Some post → disjoint_reactions post →
  let st1 := (setReaction st user id (Some (kind_name k1))).2 in
  ∃ post2,
    setReaction st1 user id (Some (kind_name k2)) =
      (Res 200 (ReactionJson "Reaction updated successfully"
                  (length (likes post2)) (length (dislikes post2))
                  (reaction_name
                     (transition (transition (state_of user post) k1) k2))),
       <[id := post2]> st1) ∧
    disjoint_reactions post2 ∧
    state_of user post2 = transition (transition (state_of user post) k1) k2.
Proof.
  intros Hget Hd. rewrite (setReaction_found st user id post k1 Hget). simpl.
  set (post1 := toggle (Some (kind_name k1)) user post).
  assert (Hd1 : disjoint_reactions post1) by by apply toggle_disjoint.
  assert (Hs1 : state_of user post1 = transition (state_of user post) k1)
    by by apply state_of_toggle.
  rewrite (setReaction_found _ user id post1 k2) by apply lookup_insert_eq.
  simpl. exists (toggle (Some (kind_name k2)) user post1).
  rewrite userReaction_state, state_of_toggle, Hs1 by done.
  split; [done|]. split; [by apply toggle_disjoint|done].
Qed.

(** C2, as the code has it. With the likes and dislikes of the stored post
    disjoint, a valid request takes the user's effective reaction through
    the transition table, saves the post and reports the new state in
    [userReaction]; the user is in [likes] exactly when the new state is
    Liked and in [dislikes] exactly when it is Disliked. Like followed by
    dislike always ends with the user in [dislikes] and not in [likes].
    Like followed by like ends at none, with the user not in [likes], when
    the user had not liked the post before; when the user had, the first
    request removes the like and the second puts it back. *)
Theorem setReaction_follows_table st user id post :
  st !! id = Some post → disjoint_reactions post →
  let s := state_of user post in
  let like := Some (lit "like") in
  let dislike := Some (lit "dislike") in
  (∀ k, ∃ post',
     setReaction st user id (Some (kind_name k)) =
       (Res 200 (ReactionJson "Reaction updated successfully"
                   (length (likes post')) (length (dislikes post'))
                   (reaction_name (transition s k))),
        <[id := post']> st) ∧
     state_of user post' = transition s k ∧
     (user ∈ likes post' ↔ transition s k = Liked) ∧
     (user ∈ dislikes post' ↔ transition s k = Disliked)) ∧
  (let st1 := (setReaction st user id like).2 in
   ∃ post2,
     setReaction st1 user id dislike =
       (Res 200 (ReactionJson "Reaction updated successfully"
                   (length (likes post2)) (length (dislikes post2))
                   (Some (lit "dislike"))),
        <[id := post2]> st1) ∧
     user ∈ dislikes post2 ∧ ¬ user ∈ likes post2) ∧
  (let st1 := (setReaction st user id like).2 in
   ∃ post2 r,
     setReaction st1 user id like =
       (Res 200 (ReactionJson "Reaction updated successfully"
                   (length (likes post2)) (length (dislikes post2))
                   (reaction_name r)),
        <[id := post2]> st1) ∧
     state_of user post2 = r ∧
     (¬ user ∈ likes post → r = NoReaction ∧ ¬ user ∈ likes post2) ∧
     (user ∈ likes post → r = Liked ∧ user ∈ likes post2)).
Proof.
  intros Hget Hd s like dislike. split; [|split].
  - intros k. exists (toggle (Some (kind_name k)) user post).
    rewrite (setReaction_found st user id post k Hget). simpl.
    assert (Hd' := toggle_disjoint (Some (kind_name k)) user post Hd).
    assert (Hs := state_of_toggle user post k Hd). fold s in Hs.
    rewrite userReaction_state, Hs. split; [done|]. split; [done|].
    destruct (state_of_spec user _ Hd') as (HL & HD & HN).
    rewrite Hs in HL, HD, HN. split.
    + split; [|tauto]. intros Hin.
      destruct (transition s k); [tauto|done|tauto].
    + split; [|tauto]. intros Hin.
      destruct (transition s k); [tauto|tauto|done].
  - destruct (two_requests st user id post Like Dislike Hget Hd)
      as (post2 & Hr & Hd2 & Hs2).
    exists post2. simpl in Hr. fold s in Hr, Hs2.
    assert (Hend : transition (transition s Like) Dislike = Disliked)
      by by destruct s.
    rewrite Hend in Hr, Hs2. split; [exact Hr|].
    by apply (state_of_spec user post2 Hd2).
  - destruct (two_requests st user id post Like Like Hget Hd)
      as (post2 & Hr & Hd2 & Hs2).
    exists post2, (transition (transition s Like) Like).
    simpl in Hr. fold s in Hr, Hs2. split; [exact Hr|]. split; [exact Hs2|].
    destruct (state_of_spec user post Hd) as (HL & HD & HN). fold s in HL, HD, HN.
    destruct (state_of_spec user post2 Hd2) as (HL2 & HD2 & HN2).
    rewrite Hs2 in HL2, HD2, HN2.
    split; intros Hin.
    + destruct s; simpl in *; [tauto| |tauto].
      exfalso. apply Hin. by apply HL.
    + destruct s; simpl in *; [|tauto|].
      * exfalso. assert (¬ user ∈ likes post) by by apply HN. tauto.
      * exfalso. assert (¬ user ∈ likes post) by by apply HD. tauto.
Qed.

Lemma liked_post_disjoint : disjoint_reactions liked_post.
Proof. intros u [_ H]. simpl in H. by apply elem_of_nil in H. Qed.

Lemma setReaction_follows_table_witness :
  let st1 := (setReaction liked_store 5 9 (Some (lit "like"))).2 in
  ∃ post2,
    setReaction st1 5 9 (Some (lit "dislike")) =
      (Res 200 (ReactionJson "Reaction updated successfully"
                  (length (likes post2)) (length (dislikes post2))
                  (Some (lit "dislike"))),
       <[9%N := post2]> st1) ∧
    5%N ∈ dislikes post2 ∧ ¬ 5%N ∈ likes post2.
Proof.
  exact (proj1 (proj2 (setReaction_follows_table liked_store 5 9 liked_post
                         eq_refl liked_post_disjoint))).
Defined.

(** C2, the clause on two likes as the specification words it: user 5 has
    liked post 9, nobody has disliked it; after two like requests by user 5
    the answer is [userReaction: 'like'] and user 5 is in [likes]. *)
Lemma like_twice_when_liked_counterexample :
  let like := Some (lit "like") in
  let st1 := (setReaction liked_store 5 9 like).2 in
  liked_store !! 9%N = Some liked_post ∧
  likes liked_post = [5%N] ∧ dislikes liked_post = [] ∧
  (setReaction st1 5 9 like).1 =
    Res 200 (ReactionJson "Reaction updated successfully" 1 0
               (Some (lit "like"))) ∧
  likes <$> (setReaction st1 5 9 like).2 !! 9%N = Some [5%N] ∧
  reaction_in (setReaction st1 5 9 like).2 9 5 ≠ Some NoReaction.
Proof. vm_compute. repeat split; discriminate. Qed.

Lemma reactions_stay_disjoint_witness :
  ∃ post',
    run_ops 9 liked_store
      (take 3 [SetReaction 5 (Some (lit "dislike")); ClearReaction 7;
               SetReaction 7 (Some (lit "like")); SetReaction 5 None])
      !! 9%N = Some post' ∧
    disjoint_reactions post' ∧
    (∀ u, ¬ (u ∈ likes post' ∧ u ∈ dislikes post')).
Proof.
  exact (reactions_stay_disjoint 9 liked_store liked_post _
           eq_refl liked_post_disjoint 3).
Defined.

(** ** Validation of the payload *)

Lemma js_not_Some (c : jsstring) : c ≠ [] → js_not (Some c) = false.
Proof. by destruct c. Qed.

Lemma too_long (c : jsstring) : 280 < length c → Nat.ltb 280 (length c) = true.
Proof. intros H. by apply Nat.ltb_lt. Qed.

Lemma not_too_long (c : jsstring) : length c ≤ 280 → Nat.ltb 280 (length c) = false.
Proof. intros H. by apply Nat.ltb_ge. Qed.

Lemma content_ok_intro (c : jsstring) : c ≠ [] → length c ≤ 280 → content_ok c = true.
Proof.
  intros Hne Hlen. unfold content_ok.
  rewrite bool_decide_eq_false_2 by done.
  by apply Nat.leb_le in Hlen as ->.
Qed.

(** ** Ownership and existence *)

(** C3. With a content that passes validation, PUT /:id by someone who is
    not the author of the stored post answers 403 and leaves the store as
    it was, and so does DELETE /:id; on an id with no post both answer 404
    whoever asks: the lookup comes before the comparison of author and
    user. *)
Theorem existence_then_ownership st user id (c : jsstring) :
  c ≠ [] → length c ≤ 280 →
  match st !! id with
  | Some post =>
      author post ≠ user →
      updatePost st user id (Some c) =
        (Res 403 (Message "Not authorized to edit this post"), st) ∧
      deletePost st user id =
        (Res 403 (Message "Not authorized to delete this post"), st)
  | None =>
      updatePost st user id (Some c) = (Res 404 (Message "Post not found"), st) ∧
      deletePost st user id = (Res 404 (Message "Post not found"), st)
  end.
Proof.
  intros Hne Hlen. unfold updatePost, deletePost.
  rewrite (js_not_Some c Hne). change (default [] (Some c)) with c.
  rewrite (not_too_long c Hlen).
  destruct (st !! id) as [post|]; [|done].
  intros Hauthor. by rewrite bool_decide_eq_false_2.
Qed.

Lemma existence_then_ownership_witness :
  updatePost liked_store 2 9 (Some (lit "edited")) =
    (Res 403 (Message "Not authorized to edit this post"), liked_store) ∧
  deletePost liked_store 2 9 =
    (Res 403 (Message "Not authorized to delete this post"), liked_store).
Proof.
  assert (Hne : lit "edited" ≠ []) by discriminate.
  assert (Hlen : length (lit "edited") ≤ 280) by (vm_compute; lia).
  assert (Hother : author liked_post ≠ 2%N) by discriminate.
  exact (existence_then_ownership liked_store 2 9 (lit "edited")
           Hne Hlen Hother).
Defined.

(** C10. A refused content makes PUT /:id and POST /:id/replies answer 400,
    and a [type] other than 'like' and 'dislike' makes POST /:id/reactions
    answer 400 'Invalid reaction type', for every id, stored or not: the
    store is not consulted and is left as it was. *)
Theorem validation_before_lookup st user id content type now :
  refused_content content →
  type ≠ Some (lit "like") → type ≠ Some (lit "dislike") →
  (∃ msg, updatePost st user id content = (Res 400 (Message msg), st)) ∧
  (∃ msg, addReply st user id content now = (Res 400 (Message msg), st)) ∧
  setReaction st user id type = (Res 400 (Message "Invalid reaction type"), st).
Proof.
  intros Hc Hlike Hdislike. unfold updatePost, addReply, setReaction.
  assert (Hv : valid_reaction type = false).
  { destruct (valid_reaction type) eqn:Hv; [|done].
    destruct (valid_reaction_inv type Hv) as [[] ->]; contradiction. }
  rewrite Hv. cbn [negb].
  destruct (js_not content) eqn:Hnot.
  { split; [by eexists|split; [by eexists|done]]. }
  destruct Hc as [Hc|Hc]; [congruence|].
  rewrite (too_long _ Hc). split; [by eexists|split; [by eexists|done]].
Qed.

Lemma validation_before_lookup_witness :
  (∃ msg, updatePost ∅ 2 9 (Some []) = (Res 400 (Message msg), ∅)) ∧
  (∃ msg, addReply ∅ 2 9 (Some []) 1000 = (Res 400 (Message msg), ∅)) ∧
  setReaction ∅ 2 9 (Some (lit "love")) =
    (Res 400 (Message "Invalid reaction type"), ∅).
Proof.
  apply (validation_before_lookup ∅ 2 9 (Some []) (Some (lit "love")) 1000);
    [by left | discriminate | discriminate].
Defined.

(** ** Creation *)

Lemma validPostTypes_nonempty pt : pt ∈ validPostTypes → pt ≠ [].
Proof.
  unfold validPostTypes. rewrite !elem_of_cons, elem_of_nil.
  intros [->|[->|[->|[->|[]]]]]; discriminate.
Qed.

(** A request that passes the route's checks and the schema's is stored
    under the new id, as [new Post] built it. *)
Lemma createPost_created st user (c pt loc : jsstring) file new_id now :
  c ≠ [] → length c ≤ 280 → pt ∈ validPostTypes → trim loc ≠ [] →
  file ≠ UploadError → st !! new_id = None →
  createPost st user (Some c) (Some pt) (Some loc) file new_id now =
    let imageUrl := match file with Uploaded url => Some url | _ => None end in
    let post := new_Post user c pt loc imageUrl now in
    (Res 201 (PostJson "Post created successfully" new_id post),
     <[new_id := post]> st).
Proof.
  intros Hc Hlen Hpt Hloc Hfile Hfresh. unfold createPost.
  assert (Hloc' : loc ≠ []) by (intros ->; by apply Hloc).
  rewrite (js_not_Some c Hc), (js_not_Some pt (validPostTypes_nonempty pt Hpt)),
    (js_not_Some loc Hloc').
  cbn [orb].
  change (default [] (Some c)) with c. change (default [] (Some pt)) with pt.
  change (default [] (Some loc)) with loc.
  rewrite (not_too_long c Hlen), (bool_decide_eq_true_2 _ Hpt). cbn [negb].
  assert (Hsave : ∀ imageUrl,
    insert_new st new_id (new_Post user c pt loc imageUrl now) =
      Some (<[new_id := new_Post user c pt loc imageUrl now]> st)).
  { intros imageUrl. unfold insert_new, new_Post, postType_ok, location_ok.
    cbn [content postType location].
    rewrite (content_ok_intro c Hc Hlen), (bool_decide_eq_true_2 _ Hpt),
      (bool_decide_eq_false_2 _ Hloc), Hfresh. done. }
  destruct file; [by rewrite Hsave | by rewrite Hsave | done].
Qed.

Lemma length_nonempty (c : jsstring) : 0 < length c → c ≠ [].
Proof. destruct c; simpl; [lia|done]. Qed.

(** C4. With a valid post type, a location that is not all whitespace, no
    failed upload and an unused id for the new document, a content of 280
    code units is created (201) and stored as given. A content of 281 and
    an empty content are answered 400, whatever the other fields, and the
    store is left as it was. *)
Theorem content_boundary st user (c280 c281 pt loc : jsstring) file new_id now :
  length c280 = 280 → length c281 = 281 →
  pt ∈ validPostTypes → trim loc ≠ [] → file ≠ UploadError →
  st !! new_id = None →
  (∃ post,
     createPost st user (Some c280) (Some pt) (Some loc) file new_id now =
       (Res 201 (PostJson "Post created successfully" new_id post),
        <[new_id := post]> st) ∧
     content post = c280) ∧
  createPost st user (Some c281) (Some pt) (Some loc) file new_id now =
    (Res 400 (Message "Content must be 280 characters or less"), st) ∧
  (∀ postType location file', ∃ msg,
     createPost st user (Some c281) postType location file' new_id now =
       (Res 400 (Message msg), st)) ∧
  (∀ postType location file',
     createPost st user (Some []) postType location file' new_id now =
       (Res 400 (Message "Please provide all required fields"), st)).
Proof.
  intros H280 H281 Hpt Hloc Hfile Hfresh.
  assert (Hlong : Nat.ltb 280 (length c281) = true)
    by (apply too_long; lia).
  assert (Hc281 : c281 ≠ []) by (apply length_nonempty; lia).
  split; [|split; [|split]].
  - eexists. split.
    + apply createPost_created; try done; [apply length_nonempty|]; lia.
    + done.
  - unfold createPost.
    assert (Hloc' : loc ≠ []) by (intros ->; by apply Hloc).
    rewrite (js_not_Some c281 Hc281),
      (js_not_Some pt (validPostTypes_nonempty pt Hpt)), (js_not_Some loc Hloc').
    cbn [orb]. change (default [] (Some c281)) with c281. by rewrite Hlong.
  - intros postType location file'. unfold createPost.
    destruct (js_not (Some c281) || js_not postType || js_not location);
      [by eexists|].
    change (default [] (Some c281)) with c281. rewrite Hlong. by eexists.
  - done.
Qed.

Lemma content_boundary_witness :
  let c280 := replicate 280 97%N in
  let c281 := replicate 281 97%N in
  (∃ post,
     createPost ∅ 1 (Some c280) (Some (lit "help")) (Some (lit "Pune"))
                NoFile 7 1000 =
       (Res 201 (PostJson "Post created successfully" 7 post),
        <[7%N := post]> ∅) ∧
     content post = c280) ∧
  createPost ∅ 1 (Some c281) (Some (lit "help")) (Some (lit "Pune"))
             NoFile 7 1000 =
    (Res 400 (Message "Content must be 280 characters or less"), ∅) ∧
  (∀ postType location file', ∃ msg,
     createPost ∅ 1 (Some c281) postType location file' 7 1000 =
       (Res 400 (Message msg), ∅)) ∧
  (∀ postType location file',
     createPost ∅ 1 (Some []) postType location file' 7 1000 =
       (Res 400 (Message "Please provide all required fields"), ∅)).
Proof.
  apply (content_boundary ∅ 1 (replicate 280 97%N) (replicate 281 97%N)
           (lit "help") (lit "Pune") NoFile 7 1000).
  - apply length_replicate.
  - apply length_replicate.
  - unfold validPostTypes. rewrite !elem_of_cons. right; left; reflexivity.
  - discriminate.
  - discriminate.
  - reflexivity.
Defined.

(** A location of whitespace only passes the route's check, is trimmed to
    the empty string by the schema and fails its [required] validator: the
    route answers 500 and nothing is stored. *)
Lemma createPost_blank_location st user (c pt loc : jsstring) file new_id now :
  c ≠ [] → length c ≤ 280 → pt ∈ validPostTypes →
  loc ≠ [] → trim loc = [] → file ≠ UploadError →
  createPost st user (Some c) (Some pt) (Some loc) file new_id now =
    (Res 500 (Message "Server error while creating post"), st).
Proof.
  intros Hc Hlen Hpt Hloc Hblank Hfile. unfold createPost.
  rewrite (js_not_Some c Hc), (js_not_Some pt (validPostTypes_nonempty pt Hpt)),
    (js_not_Some loc Hloc).
  cbn [orb].
  change (default [] (Some c)) with c. change (default [] (Some pt)) with pt.
  change (default [] (Some loc)) with loc.
  rewrite (not_too_long c Hlen), (bool_decide_eq_true_2 _ Hpt). cbn [negb].
  assert (Hsave : ∀ imageUrl,
    insert_new st new_id (new_Post user c pt loc imageUrl now) = None).
  { intros imageUrl. unfold insert_new, new_Post, location_ok.
    cbn [content postType location]. rewrite Hblank.
    by destruct (content_ok c && postType_ok pt). }
  destruct file; [by rewrite Hsave | by rewrite Hsave | done].
Qed.

(** C7, as the code has it. A request with a content of 1 to 280 code
    units, a valid post type and a location that is not all whitespace (no
    failed upload, an unused id) is answered 201, and GET on the new id
    returns the stored post: content, post type and author are the inputs,
    the location is the input trimmed of the whitespace around it (the
    input itself when there is none), likes, dislikes and replies are empty,
    and the post carries the new id and the time of creation. *)
Theorem create_then_get st user (c pt loc : jsstring) file new_id now :
  c ≠ [] → length c ≤ 280 → pt ∈ validPostTypes → trim loc ≠ [] →
  file ≠ UploadError → st !! new_id = None →
  ∃ post st',
    createPost st user (Some c) (Some pt) (Some loc) file new_id now =
      (Res 201 (PostJson "Post created successfully" new_id post), st') ∧
    getPost st' new_id = Res 200 (PostDoc new_id post) ∧
    content post = c ∧ postType post = pt ∧ author post = user ∧
    location post = trim loc ∧ (trim loc = loc → location post = loc) ∧
    likes post = [] ∧ dislikes post = [] ∧ replies post = [] ∧
    createdAt post = now.
Proof.
  intros Hc Hlen Hpt Hloc Hfile Hfresh.
  rewrite (createPost_created st user c pt loc file new_id now) by done.
  cbn zeta. eexists. eexists. split; [reflexivity|].
  unfold getPost. rewrite lookup_insert_eq. by repeat split.
Qed.

Lemma create_then_get_witness :
  ∃ post st',
    createPost ∅ 1 (Some (lit "Lost keys near the park")) (Some (lit "help"))
               (Some (lit "Pune")) NoFile 7 1000 =
      (Res 201 (PostJson "Post created successfully" 7 post), st') ∧
    getPost st' 7 = Res 200 (PostDoc 7 post) ∧
    content post = lit "Lost keys near the park" ∧
    postType post = lit "help" ∧ author post = 1%N ∧
    location post = trim (lit "Pune") ∧
    (trim (lit "Pune") = lit "Pune" → location post = lit "Pune") ∧
    likes post = [] ∧ dislikes post = [] ∧ replies post = [] ∧
    createdAt post = 1000%Z.
Proof.
  apply (create_then_get ∅ 1 (lit "Lost keys near the park") (lit "help")
           (lit "Pune") NoFile 7 1000).
  - discriminate.
  - vm_compute. lia.
  - unfold validPostTypes. rewrite !elem_of_cons. right; left; reflexivity.
  - discriminate.
  - discriminate.
  - reflexivity.
Defined.

(** C7, as the specification words it: a location with a space on either
    side is a valid input, and the post read back has the location without
    them. *)
Lemma padded_location_counterexample :
  let loc := lit " Pune " in
  let created :=
    createPost ∅ 1 (Some (lit "Lost keys near the park")) (Some (lit "help"))
               (Some loc) NoFile 7 1000 in
  ∃ post,
    created.1 = Res 201 (PostJson "Post created successfully" 7 post) ∧
    getPost created.2 7 = Res 200 (PostDoc 7 post) ∧
    location post = lit "Pune" ∧
    location post ≠ loc.
Proof.
  eexists. split; [vm_compute; reflexivity|].
  split; [vm_compute; reflexivity|]. split; [reflexivity|discriminate].
Qed.

(** ** Listing *)

(** [find] returns the stored documents that match, each once. *)
Lemma find_spec q st d :
  d ∈ find q st ↔ st !! d.1 = Some d.2 ∧ matches q d = true.
Proof.
  unfold find. rewrite list_elem_of_filter. destruct d as [k p].
  rewrite elem_of_map_to_list. simpl.
  destruct (matches q (k, p)); simpl; intuition discriminate.
Qed.

Lemma find_NoDup q st : NoDup (find q st).
Proof. unfold find. apply NoDup_filter, NoDup_map_to_list. Qed.

Lemma Math_ceil_div_spec total limit :
  (0 ≤ total)%Z → (1 ≤ limit)%Z →
  ((Math_ceil_div total limit - 1) * limit < total
   ∧ total ≤ Math_ceil_div total limit * limit)%Z.
Proof.
  intros Ht Hl. unfold Math_ceil_div.
  pose proof (Z.div_mod total limit ltac:(lia)) as Hdm.
  pose proof (Z.mod_pos_bound total limit ltac:(lia)) as Hm.
  destruct (Z.eqb_spec (total mod limit) 0) as [H0|H0]; nia.
Qed.

Lemma StronglySorted_take {A} (R : relation A) n (l : list A) :
  StronglySorted R l → StronglySorted R (take n l).
Proof.
  intros Hs. rewrite <-(take_drop n l) in Hs.
  by apply StronglySorted_app_1_l in Hs.
Qed.

Lemma StronglySorted_drop {A} (R : relation A) n (l : list A) :
  StronglySorted R l → StronglySorted R (drop n l).
Proof.
  intros Hs. rewrite <-(take_drop n l) in Hs.
  by apply StronglySorted_app_1_r in Hs.
Qed.

(** C5. For [page ≥ 1] and [limit ≥ 1], GET / answers with the slice of
    the matching posts, newest first, that starts at offset
    [(page - 1) * limit] and has at most [limit] posts; [total] is the
    number of matching posts and [totalPages] is the ceiling of
    [total / limit]. With 45 matching posts and a limit of 20, page 1 has
    20 posts, page 3 has 5, and [totalPages] is 3. *)
Theorem listPosts_page `{QueryEngine} st q page limit :
  (1 ≤ page)%Z → (1 ≤ limit)%Z →
  let offset := Z.to_nat ((page - 1) * limit) in
  let size := Z.to_nat limit in
  ∃ sorted items totalPages total,
    listPosts st q page limit =
      Res 200 (PostsPage items totalPages page total) ∧
    sorted ≡ₚ find q st ∧ NoDup sorted ∧
    (∀ d, d ∈ sorted ↔ st !! d.1 = Some d.2 ∧ matches q d = true) ∧
    StronglySorted newer_first sorted ∧
    items = take size (drop offset sorted) ∧
    (∀ i, i < size → items !! i = sorted !! (offset + i)) ∧
    length items ≤ size ∧
    length items = Nat.min size (length (find q st) - offset) ∧
    StronglySorted newer_first items ∧
    total = Z.of_nat (length (find q st)) ∧
    ((totalPages - 1) * limit < total ∧ total ≤ totalPages * limit)%Z ∧
    (total = 45%Z → limit = 20%Z →
     totalPages = 3%Z ∧
     (page = 1%Z → length items = 20) ∧
     (page = 3%Z → length items = 5)).
Proof.
  intros Hpage Hlimit offset size.
  set (sorted := sort_createdAt_desc (find q st)).
  assert (Hperm : sorted ≡ₚ find q st) by apply sort_perm.
  assert (Hlen : length sorted = length (find q st)) by by rewrite Hperm.
  assert (Hitems : length (take size (drop offset sorted))
                   = Nat.min size (length (find q st) - offset))
    by by rewrite length_take, length_drop, Hlen.
  exists sorted, (take size (drop offset sorted)),
    (Math_ceil_div (countDocuments q st) limit), (countDocuments q st).
  split.
  { unfold listPosts. by rewrite Z.mul_1_r. }
  split; [done|].
  split; [rewrite Hperm; apply find_NoDup|].
  split; [intros d; rewrite Hperm; apply find_spec|].
  split; [apply sort_sorted|].
  split; [done|].
  split.
  { intros i Hi. by rewrite lookup_take_lt, lookup_drop. }
  split; [rewrite length_take; lia|].
  split; [done|].
  split; [apply StronglySorted_take, StronglySorted_drop, sort_sorted|].
  split; [done|].
  split; [apply Math_ceil_div_spec; unfold countDocuments; lia|].
  intros Htotal ->. rewrite Htotal.
  split; [reflexivity|].
  unfold countDocuments in Htotal.
  assert (length (find q st) = 45) as Hn by lia.
  rewrite Hitems, Hn. subst offset size.
  split; intros ->; reflexivity.
Qed.

Lemma listPosts_page_witness :
  ∃ items,
    @listPosts merge_engine forty_five everything 3 20 =
      Res 200 (PostsPage items 3 3 45) ∧
    length items = 5 ∧
    StronglySorted newer_first items.
Proof.
  destruct (@listPosts_page merge_engine forty_five everything 3 20)
    as (sorted & items & totalPages & total & Hres & _ & _ & _ & _ & _ & _
        & _ & _ & Hsorted & Htotal & _ & H45); [lia|lia|].
  assert (Hcount : total = 45%Z) by (rewrite Htotal; vm_compute; reflexivity).
  destruct (H45 Hcount eq_refl) as (Hpages & _ & Hlast).
  exists items. rewrite Hres, Hpages, Hcount.
  split; [reflexivity|]. split; [by apply Hlast|exact Hsorted].
Defined.

Example first_page_of_45 :
  match @listPosts merge_engine forty_five everything 1 20 with
  | Res 200 (PostsPage items totalPages currentPage total) =>
      length items = 20 ∧ fst <$> head items = Some 44%N ∧
      totalPages = 3%Z ∧ currentPage = 1%Z ∧ total = 45%Z
  | _ => False
  end.
Proof. vm_compute. repeat split; reflexivity. Qed.

Example last_page_of_45 :
  match @listPosts merge_engine forty_five everything 3 20 with
  | Res 200 (PostsPage items totalPages currentPage total) =>
      fst <$> items = [4; 3; 2; 1; 0]%N ∧
      totalPages = 3%Z ∧ currentPage = 3%Z ∧ total = 45%Z
  | _ => False
  end.
Proof. vm_compute. repeat split; reflexivity. Qed.

(** ** The order of a listing *)

Lemma listPosts_sorted `{QueryEngine} st q page limit posts tp cp total :
  listPosts st q page limit = Res 200 (PostsPage posts tp cp total) →
  StronglySorted newer_first posts.
Proof.
  unfold listPosts. intros [= <- _ _ _].
  apply StronglySorted_take, StronglySorted_drop, sort_sorted.
Qed.

(** Two engines agree on documents with pairwise different [createdAt]. *)
Lemma engines_agree (E1 E2 : QueryEngine) (l : list (ObjectId * Post)) :
  (∀ a b, a ∈ l → b ∈ l → createdAt a.2 = createdAt b.2 → a = b) →
  @sort_createdAt_desc E1 l = @sort_createdAt_desc E2 l.
Proof.
  intros Hdistinct.
  apply (StronglySorted_unique_strong newer_first).
  - intros a b Ha Hb Hab Hba.
    rewrite (@sort_perm E1) in Ha. rewrite (@sort_perm E2) in Hb.
    apply Hdistinct; [done..|]. unfold newer_first in *. lia.
  - apply sort_sorted.
  - apply sort_sorted.
  - by rewrite (@sort_perm E1), (@sort_perm E2).
Qed.

(** C8, as the code has it. For [page ≥ 1] and [limit ≥ 1] and every
    stored collection, the posts of a listing come newest first. The route
    asks for no second sort key: the order among posts of equal [createdAt]
    is left to the database; when the matching posts have pairwise
    different [createdAt], every engine returns the same answer, so the
    sequence is determined. *)
Theorem listPosts_order (E1 E2 : QueryEngine) st q page limit :
  (1 ≤ page)%Z → (1 ≤ limit)%Z →
  (∃ posts totalPages total,
     @listPosts E1 st q page limit =
       Res 200 (PostsPage posts totalPages page total) ∧
     StronglySorted newer_first posts) ∧
  ((∀ a b, a ∈ find q st → b ∈ find q st →
           createdAt a.2 = createdAt b.2 → a = b) →
   @listPosts E1 st q page limit = @listPosts E2 st q page limit).
Proof.
  intros _ _. split.
  - eexists _, _, _. split; [reflexivity|].
    apply StronglySorted_take, StronglySorted_drop, sort_sorted.
  - intros Hdistinct. unfold listPosts.
    by rewrite (engines_agree E1 E2 _ Hdistinct).
Qed.

Lemma untied_store_distinct a b :
  a ∈ find everything untied_store → b ∈ find everything untied_store →
  createdAt a.2 = createdAt b.2 → a = b.
Proof.
  assert (Hfind : find everything untied_store
                  = [(2%N, sample_post 8); (1%N, sample_post 7)])
    by (vm_compute; reflexivity).
  rewrite Hfind, !elem_of_cons, !elem_of_nil.
  intros [->|[->|[]]] [->|[->|[]]]; simpl; intros; done.
Qed.

Lemma listPosts_order_witness :
  (∃ posts totalPages total,
     @listPosts merge_engine untied_store everything 1 20 =
       Res 200 (PostsPage posts totalPages 1 total) ∧
     StronglySorted newer_first posts) ∧
  @listPosts merge_engine untied_store everything 1 20 =
  @listPosts reversed_engine untied_store everything 1 20.
Proof.
  destruct (listPosts_order merge_engine reversed_engine untied_store
              everything 1 20) as [Hsorted Hsame]; [lia|lia|].
  split; [exact Hsorted|exact (Hsame untied_store_distinct)].
Defined.

(** The same on a collection with a tie: both engines list newest first,
    in different orders. *)
Example tied_listings_are_sorted :
  ∀ E : QueryEngine, ∃ posts totalPages total,
    @listPosts E tied_store everything 1 20 =
      Res 200 (PostsPage posts totalPages 1 total) ∧
    StronglySorted newer_first posts.
Proof.
  intros E. eexists _, _, _. split; [reflexivity|].
  apply StronglySorted_take, StronglySorted_drop, sort_sorted.
Qed.

(** C8, as the specification words it: posts 1 and 2 have the same
    [createdAt]; one engine that sorts newest first lists them as 2, 1 and
    another lists them as 1, 2. The code names no key to choose between
    them. *)
Lemma tie_order_counterexample :
  createdAt <$> tied_store !! 1%N = createdAt <$> tied_store !! 2%N ∧
  ∃ E1 E2 : QueryEngine,
    @listPosts E1 tied_store everything 1 20 =
      Res 200 (PostsPage [(2%N, sample_post 7); (1%N, sample_post 7)] 1 1 2) ∧
    @listPosts E2 tied_store everything 1 20 =
      Res 200 (PostsPage [(1%N, sample_post 7); (2%N, sample_post 7)] 1 1 2) ∧
    @listPosts E1 tied_store everything 1 20 ≠
    @listPosts E2 tied_store everything 1 20.
Proof.
  split; [reflexivity|].
  exists merge_engine, reversed_engine.
  split; [vm_compute; reflexivity|]. split; [vm_compute; reflexivity|].
  vm_compute. discriminate.
Qed.

(** * More of the routes *)

(** ** Requests that fail leave the store alone *)

Lemma setReaction_cases st user id type :
  (valid_reaction type = false ∧
   setReaction st user id type = (Res 400 (Message "Invalid reaction type"), st))
  ∨ (valid_reaction type = true ∧ st !! id = None ∧
     setReaction st user id type = (Res 404 (Message "Post not found"), st))
  ∨ (∃ post, valid_reaction type = true ∧ st !! id = Some post ∧
       setReaction st user id type =
         (Res 200 (ReactionJson "Reaction updated successfully"
                     (length (likes (toggle type user post)))
                     (length (dislikes (toggle type user post)))
                     (userReaction user (toggle type user post))),
          <[id := toggle type user post]> st)).
Proof.
  unfold setReaction. destruct (valid_reaction type); simpl; [|by left].
  destruct (st !! id) as [post|]; [|by right; left].
  right; right. by exists post.
Qed.

(** What PUT /:id does, case by case. *)
Lemma updatePost_cases st user id content :
  (∃ msg, updatePost st user id content = (Res 400 (Message msg), st))
  ∨ (st !! id = None ∧
     updatePost st user id content = (Res 404 (Message "Post not found"), st))
  ∨ (∃ post, st !! id = Some post ∧ author post ≠ user ∧
       updatePost st user id content =
         (Res 403 (Message "Not authorized to edit this post"), st))
  ∨ (∃ post c, st !! id = Some post ∧ author post = user ∧
       content = Some c ∧ c ≠ [] ∧ length c ≤ 280 ∧
       updatePost st user id content =
         (Res 200 (PostJson "Post updated successfully" id
                     (set_content c post)),
          <[id := set_content c post]> st)).
Proof.
  unfold updatePost.
  destruct content as [[|x c]|]; cbn [js_not];
    [left; by eexists| |left; by eexists].
  change (default [] (Some (x :: c))) with (x :: c).
  destruct (Nat.ltb 280 (length (x :: c))) eqn:Hlen; [left; by eexists|].
  apply Nat.ltb_ge in Hlen.
  destruct (st !! id) as [post|]; [|by right; left].
  destruct (bool_decide (author post = user)) eqn:Hauth; simpl.
  - apply bool_decide_eq_true in Hauth.
    rewrite (content_ok_intro (x :: c)) by done.
    right; right; right. by exists post, (x :: c).
  - apply bool_decide_eq_false in Hauth.
    right; right; left. by exists post.
Qed.

(** What POST /:id/replies does, case by case. *)
Lemma addReply_cases st user id content now :
  (∃ msg, addReply st user id content now = (Res 400 (Message msg), st))
  ∨ (st !! id = None ∧
     addReply st user id content now =
       (Res 404 (Message "Post not found"), st))
  ∨ (∃ post c, st !! id = Some post ∧
       content = Some c ∧ c ≠ [] ∧ length c ≤ 280 ∧
       addReply st user id content now =
         (Res 201 (ReplyJson "Reply added successfully"
                     (Some (Reply.mk user c now))),
          <[id := set_replies (replies post ++ [Reply.mk user c now]) post]>
            st)).
Proof.
  unfold addReply.
  destruct content as [[|x c]|]; cbn [js_not];
    [left; by eexists| |left; by eexists].
  change (default [] (Some (x :: c))) with (x :: c).
  destruct (Nat.ltb 280 (length (x :: c))) eqn:Hlen; [left; by eexists|].
  apply Nat.ltb_ge in Hlen.
  destruct (st !! id) as [post|]; [|by right; left].
  unfold reply_ok. cbn [Reply.content].
  rewrite (content_ok_intro (x :: c)) by done.
  right; right. exists post, (x :: c). cbn [replies set_replies].
  by rewrite last_snoc.
Qed.

(** What POST / does, case by case. *)
Lemma createPost_cases st user content postType location file new_id now :
  (∃ msg, createPost st user content postType location file new_id now =
            (Res 400 (Message msg), st))
  ∨ (∃ msg, createPost st user content postType location file new_id now =
              (Res 500 (Message msg), st))
  ∨ (∃ (c pt loc : jsstring) imageUrl,
       content = Some c ∧ postType = Some pt ∧ location = Some loc ∧
       c ≠ [] ∧ length c ≤ 280 ∧ pt ∈ validPostTypes ∧ trim loc ≠ [] ∧
       file ≠ UploadError ∧ st !! new_id = None ∧
       imageUrl = match file with Uploaded url => Some url | _ => None end ∧
       createPost st user content postType location file new_id now =
         (Res 201 (PostJson "Post created successfully" new_id
                     (new_Post user c pt loc imageUrl now)),
          <[new_id := new_Post user c pt loc imageUrl now]> st)).
Proof.
  destruct (js_not content || js_not postType || js_not location) eqn:Hnot.
  { left. unfold createPost. rewrite Hnot. by eexists. }
  apply orb_false_elim in Hnot as [Hnot Hloc].
  apply orb_false_elim in Hnot as [Hc Hpt].
  destruct content as [c|]; [|done]. destruct postType as [pt|]; [|done].
  destruct location as [loc|]; [|done].
  assert (c ≠ []) by (by intros ->). assert (pt ≠ []) by (by intros ->).
  assert (loc ≠ []) by (by intros ->).
  destruct (decide (length c ≤ 280)) as [Hlen|Hlen]; last first.
  { left. unfold createPost. rewrite Hc, Hpt, Hloc. cbn [orb].
    change (default [] (Some c)) with c. rewrite too_long by lia.
    by eexists. }
  destruct (decide (pt ∈ validPostTypes)) as [Hvalid|Hvalid]; last first.
  { left. unfold createPost. rewrite Hc, Hpt, Hloc. cbn [orb].
    change (default [] (Some c)) with c. change (default [] (Some pt)) with pt.
    rewrite not_too_long, (bool_decide_eq_false_2 _ Hvalid) by done.
    by eexists. }
  assert (file = UploadError ∨ file ≠ UploadError) as [->|Hfile]
    by (destruct file; [by right|by right|by left]).
  { right; left. unfold createPost. rewrite Hc, Hpt, Hloc. cbn [orb].
    change (default [] (Some c)) with c. change (default [] (Some pt)) with pt.
    rewrite not_too_long, (bool_decide_eq_true_2 _ Hvalid) by done.
    by eexists. }
  destruct (decide (trim loc = [])) as [Hblank|Hblank].
  { right; left. rewrite createPost_blank_location by done. by eexists. }
  destruct (st !! new_id) as [old|] eqn:Hfresh.
  { right; left. unfold createPost. rewrite Hc, Hpt, Hloc. cbn [orb].
    change (default [] (Some c)) with c. change (default [] (Some pt)) with pt.
    change (default [] (Some loc)) with loc.
    rewrite not_too_long, (bool_decide_eq_true_2 _ Hvalid) by done.
    cbn [negb]. unfold insert_new. rewrite Hfresh.
    destruct file; [| |done];
      by destruct (_ && _); eexists. }
  right; right.
  exists c, pt, loc, (match file with Uploaded url => Some url | _ => None end).
  rewrite (createPost_created st user c pt loc file new_id now) by done.
  by repeat split.
Qed.

Lemma deletePost_cases st user id :
  (st !! id = None ∧
   deletePost st user id = (Res 404 (Message "Post not found"), st))
  ∨ (∃ post, st !! id = Some post ∧ author post ≠ user ∧
       deletePost st user id =
         (Res 403 (Message "Not authorized to delete this post"), st))
  ∨ (∃ post, st !! id = Some post ∧ author post = user ∧
       deletePost st user id =
         (Res 200 (Message "Post deleted successfully"), delete id st)).
Proof.
  unfold deletePost. destruct (st !! id) as [post|]; [|by left].
  destruct (bool_decide (author post = user)) eqn:Hauth; simpl.
  - apply bool_decide_eq_true in Hauth. right; right. by exists post.
  - apply bool_decide_eq_false in Hauth. right; left. by exists post.
Qed.

(** X1. A request that is not answered 200 or 201 leaves the store as it
    was. *)
Theorem failure_changes_nothing st m :
  status (perform st m).1 ≠ 200%Z → status (perform st m).1 ≠ 201%Z →
  (perform st m).2 = st.
Proof.
  destruct m as [user content postType location file new_id now
                |user id content|user id|user id content now
                |user id type|user id]; simpl.
  - destruct (createPost_cases st user content postType location file
                new_id now)
      as [[msg ->]|[[msg ->]|(c & pt & loc & img & _ & _ & _ & _ & _ & _ & _
                               & _ & _ & _ & ->)]]; simpl; done.
  - destruct (updatePost_cases st user id content)
      as [[msg ->]|[[_ ->]|[(post & _ & _ & ->)|(post & c & _ & _ & _ & _ & _ & ->)]]];
      simpl; done.
  - destruct (deletePost_cases st user id)
      as [[_ ->]|[(post & _ & _ & ->)|(post & _ & _ & ->)]]; simpl; done.
  - destruct (addReply_cases st user id content now)
      as [[msg ->]|[[_ ->]|(post & c & _ & _ & _ & _ & ->)]]; simpl; done.
  - destruct (setReaction_cases st user id type)
      as [[_ ->]|[(_ & _ & ->)|(post & _ & _ & ->)]]; simpl; done.
  - unfold clearReaction. destruct (st !! id); simpl; done.
Qed.

(** ** One request, one document *)

(** The store a request leaves is the old one, or the old one with the
    target written, or the old one with the target removed. *)
Lemma perform_store st m :
  (perform st m).2 = st
  ∨ (∃ p, (perform st m).2 = <[target m := p]> st)
  ∨ (perform st m).2 = delete (target m) st.
Proof.
  destruct m as [user content postType location file new_id now
                |user id content|user id|user id content now
                |user id type|user id]; simpl.
  - destruct (createPost_cases st user content postType location file
                new_id now)
      as [[msg ->]|[[msg ->]|(c & pt & loc & img & _ & _ & _ & _ & _ & _ & _
                               & _ & _ & _ & ->)]]; simpl; eauto.
  - destruct (updatePost_cases st user id content)
      as [[msg ->]|[[_ ->]|[(post & _ & _ & ->)|(post & c & _ & _ & _ & _ & _ & ->)]]];
      simpl; eauto.
  - destruct (deletePost_cases st user id)
      as [[_ ->]|[(post & _ & _ & ->)|(post & _ & _ & ->)]]; simpl; eauto.
  - destruct (addReply_cases st user id content now)
      as [[msg ->]|[[_ ->]|(post & c & _ & _ & _ & _ & ->)]]; simpl; eauto.
  - destruct (setReaction_cases st user id type)
      as [[_ ->]|[(_ & _ & ->)|(post & _ & _ & ->)]]; simpl; eauto.
  - unfold clearReaction. destruct (st !! id); simpl; eauto.
Qed.

Lemma perform_elsewhere st m id :
  target m ≠ id → (perform st m).2 !! id = st !! id.
Proof.
  intros Hid.
  destruct (perform_store st m) as [->|[[p ->]| ->]]; [done| |].
  - by apply lookup_insert_ne.
  - by apply lookup_delete_ne.
Qed.

(** X2. A request reads and writes one document only: every other document
    of the collection is after it what it was before. *)
Theorem other_documents_untouched st m id :
  target m ≠ id → (perform st m).2 !! id = st !! id.
Proof. apply perform_elsewhere. Qed.

(** ** What a stored post keeps for life *)

Lemma later_version_refl p : later_version p p.
Proof. by repeat split. Qed.

Lemma later_version_trans p q r :
  later_version p q → later_version q r → later_version p r.
Proof.
  intros (? & ? & ? & ? & ? & Hpq) (? & ? & ? & ? & ? & Hqr).
  repeat split; try congruence. by etrans.
Qed.

Lemma toggle_later_version type user post :
  later_version post (toggle type user post).
Proof.
  unfold toggle.
  destruct (bool_decide (type = _)), (includes user (likes post)),
    (includes user (dislikes post)); by repeat split.
Qed.

(** A request that is not the DELETE of a stored post leaves it stored, as
    a later version of itself. *)
Lemma perform_later_version st m id p :
  ¬ deletes id m → st !! id = Some p →
  ∃ p', (perform st m).2 !! id = Some p' ∧ later_version p p'.
Proof.
  intros Hdel Hget.
  destruct (decide (target m = id)) as [Hid|Hid]; last first.
  { exists p. rewrite perform_elsewhere by done.
    split; [done|apply later_version_refl]. }
  destruct m as [user content postType location file new_id now
                |user id' content|user id'|user id' content now
                |user id' type|user id']; simpl in *; subst.
  - destruct (createPost_cases st user content postType location file
                id now)
      as [[msg ->]|[[msg ->]|(c & pt & loc & img & _ & _ & _ & _ & _ & _ & _
                               & _ & Hfresh & _ & _)]]; simpl;
      [eauto using later_version_refl..|congruence].
  - destruct (updatePost_cases st user id content)
      as [[msg ->]|[[_ ->]|[(post & _ & _ & ->)
                           |(post & c & Hpost & _ & _ & _ & _ & ->)]]];
      simpl; [eauto using later_version_refl..|].
    rewrite lookup_insert_eq. eexists. split; [done|].
    assert (post = p) as -> by congruence. by repeat split.
  - done.
  - destruct (addReply_cases st user id content now)
      as [[msg ->]|[[_ ->]|(post & c & Hpost & _ & _ & _ & ->)]];
      simpl; [eauto using later_version_refl..|].
    rewrite lookup_insert_eq. eexists. split; [done|].
    assert (post = p) as -> by congruence.
    repeat split. by apply prefix_app_r.
  - destruct (setReaction_cases st user id type)
      as [[_ ->]|[(_ & _ & ->)|(post & _ & Hpost & ->)]];
      simpl; [eauto using later_version_refl..|].
    rewrite lookup_insert_eq. eexists. split; [done|].
    assert (post = p) as -> by congruence. apply toggle_later_version.
  - unfold clearReaction. rewrite Hget. simpl. rewrite lookup_insert_eq.
    eexists. split; [done|]. by repeat split.
Qed.

(** X3. Through any run of requests with no DELETE of it, a stored post
    stays stored and keeps its author, type, location, image and creation
    time, and the replies it had stay in place at the front of its
    replies. *)
Theorem stored_post_keeps_identity id ms : ∀ st p,
  Forall (λ m, ¬ deletes id m) ms → st !! id = Some p →
  ∃ p', run st ms !! id = Some p' ∧ later_version p p'.
Proof.
  induction ms as [|m ms IH]; intros st p Hms Hget; simpl.
  - eauto using later_version_refl.
  - apply Forall_cons in Hms as [Hm Hms].
    destruct (perform_later_version st m id p Hm Hget) as (p1 & Hget1 & H1).
    destruct (IH _ _ Hms Hget1) as (p2 & Hget2 & H2).
    eauto using later_version_trans.
Qed.

(** ** The schema holds of whatever is stored *)

Lemma toggle_valid type user post :
  valid_post post → valid_post (toggle type user post).
Proof.
  unfold toggle.
  destruct (bool_decide (type = _)), (includes user (likes post)),
    (includes user (dislikes post)); by intros (? & ? & ? & ?).
Qed.

Lemma valid_store_insert st id p :
  valid_store st → valid_post p → valid_store (<[id := p]> st).
Proof.
  intros Hst Hp id' p'. rewrite lookup_insert.
  case_decide; [by intros [= <-]|apply Hst].
Qed.

Lemma valid_store_delete st id : valid_store st → valid_store (delete id st).
Proof.
  intros Hst id' p'. rewrite lookup_delete.
  case_decide; [done|apply Hst].
Qed.

Lemma perform_valid st m : valid_store st → valid_store (perform st m).2.
Proof.
  intros Hst.
  destruct m as [user content postType location file new_id now
                |user id content|user id|user id content now
                |user id type|user id]; simpl.
  - destruct (createPost_cases st user content postType location file
                new_id now)
      as [[msg ->]|[[msg ->]|(c & pt & loc & img & _ & _ & _ & Hc & Hlen & Hpt
                               & Hloc & _ & _ & _ & ->)]]; simpl; [done..|].
    apply valid_store_insert; [done|].
    repeat split; simpl.
    + by apply content_ok_intro.
    + by apply bool_decide_eq_true_2.
    + unfold location_ok. by rewrite bool_decide_eq_false_2.
    + constructor.
  - destruct (updatePost_cases st user id content)
      as [[msg ->]|[[_ ->]|[(post & _ & _ & ->)
                           |(post & c & Hpost & _ & _ & Hc & Hlen & ->)]]];
      simpl; [done..|].
    apply valid_store_insert; [done|].
    destruct (Hst _ _ Hpost) as (_ & ? & ? & ?).
    repeat split; simpl; [by apply content_ok_intro|done..].
  - destruct (deletePost_cases st user id)
      as [[_ ->]|[(post & _ & _ & ->)|(post & _ & _ & ->)]]; simpl;
      [done..|by apply valid_store_delete].
  - destruct (addReply_cases st user id content now)
      as [[msg ->]|[[_ ->]|(post & c & Hpost & _ & Hc & Hlen & ->)]];
      simpl; [done..|].
    apply valid_store_insert; [done|].
    destruct (Hst _ _ Hpost) as (? & ? & ? & Hreplies).
    repeat split; simpl; [done..|].
    apply Forall_app. split; [done|].
    apply Forall_singleton. unfold reply_ok. simpl.
    by apply content_ok_intro.
  - destruct (setReaction_cases st user id type)
      as [[_ ->]|[(_ & _ & ->)|(post & _ & Hpost & ->)]]; simpl; [done..|].
    apply valid_store_insert; [done|]. apply toggle_valid. by eapply Hst.
  - unfold clearReaction. destruct (st !! id) as [post|] eqn:Hpost; [|done].
    simpl. apply valid_store_insert; [done|].
    by destruct (Hst _ _ Hpost) as (? & ? & ? & ?).
Qed.

(** X4. Whatever requests are made, starting from an empty collection,
    every stored post has a content of 1 to 280 code units, a post type of
    the enum and a non-empty location, and each of its replies has a content
    of 1 to 280 code units. *)
Theorem stored_posts_are_valid ms : valid_store (run ∅ ms).
Proof.
  assert (Hgen : ∀ st, valid_store st → valid_store (run st ms)).
  { induction ms as [|m ms IH]; intros st Hst; simpl; [done|].
    by apply IH, perform_valid. }
  apply Hgen. intros id p. by rewrite lookup_empty.
Qed.

(** X5. POST / is answered 201 exactly when the content has 1 to 280 code
    units, the post type is one of the four, the location has something
    other than whitespace, the upload, if any, went through, and the new id
    is unused; otherwise it is answered 400 or 500 and nothing is stored. *)
Theorem createPost_201_iff st user content postType location file new_id now :
  let r := createPost st user content postType location file new_id now in
  (status r.1 = 201%Z ↔
     ∃ c pt loc : jsstring,
       content = Some c ∧ postType = Some pt ∧ location = Some loc ∧
       c ≠ [] ∧ length c ≤ 280 ∧ pt ∈ validPostTypes ∧ trim loc ≠ [] ∧
       file ≠ UploadError ∧ st !! new_id = None) ∧
  (status r.1 ≠ 201%Z →
     (status r.1 = 400%Z ∨ status r.1 = 500%Z) ∧ r.2 = st) ∧
  (status r.1 = 201%Z →
     ∃ post, r.2 = <[new_id := post]> st ∧
       imageUrl post = match file with Uploaded url => Some url | _ => None end).
Proof.
  intros r. subst r.
  destruct (createPost_cases st user content postType location file
              new_id now)
    as [[msg Hr]|[[msg Hr]|(c & pt & loc & img & Hc & Hpt & Hloc & ? & ? & ?
                             & ? & ? & ? & Himg & Hr)]]; rewrite Hr; simpl.
  - split; [|split]; [|auto|done].
    split; [done|].
    intros (c & pt & loc & -> & -> & -> & ? & ? & ? & ? & ? & ?).
    rewrite createPost_created in Hr by done. discriminate.
  - split; [|split]; [|auto|done].
    split; [done|].
    intros (c & pt & loc & -> & -> & -> & ? & ? & ? & ? & ? & ?).
    rewrite createPost_created in Hr by done. discriminate.
  - split; [|split]; [|done|].
    + split; [|done]. intros _. by exists c, pt, loc.
    + intros _. eexists. split; [done|]. by rewrite Himg.
Qed.

(** ** Counts of reactions *)

Lemma without_absent u l : u ∉ l → without u l = l.
Proof.
  intros Hu. unfold without. induction l as [|x l IH]; [done|].
  rewrite filter_cons. apply not_elem_of_cons in Hu as [Hx Hl].
  destruct (decide (x ≠ u)) as [_|Heq]; [by rewrite IH|].
  exfalso. apply Heq. congruence.
Qed.

Lemma without_NoDup u l : NoDup l → NoDup (without u l).
Proof. apply NoDup_filter. Qed.

Lemma length_without u l :
  NoDup l → u ∈ l → length (without u l) + 1 = length l.
Proof.
  unfold without. induction l as [|x l IH]; intros Hnd Hin.
  - by apply elem_of_nil in Hin.
  - apply NoDup_cons in Hnd as [Hx Hnd]. rewrite filter_cons.
    destruct (decide (x ≠ u)) as [Hne|Heq].
    + apply elem_of_cons in Hin as [->|Hin]; [done|].
      simpl. rewrite <-(IH Hnd Hin). lia.
    + assert (x = u) as -> by (destruct (decide (x = u)); [done|contradiction]).
      fold (without u l). rewrite without_absent by done. simpl. lia.
Qed.

Lemma push_NoDup (u : N) l : NoDup l → u ∉ l → NoDup (l ++ [u]).
Proof.
  intros Hnd Hu. apply NoDup_app. split; [done|]. split.
  - intros x Hx Hx'. apply list_elem_of_singleton in Hx' as ->. done.
  - apply NoDup_singleton.
Qed.

(** X7. On a post whose likes and dislikes are disjoint and free of
    duplicates, a valid reaction request keeps them free of duplicates, and
    the two counts of the response move with the user's own state and with
    nothing else: the like count goes up by one when the user becomes
    Liked, down by one when the user stops being Liked, and likewise for
    dislikes. *)
Theorem reaction_counts st user id post k :
  st !! id = Some post → disjoint_reactions post →
  NoDup (likes post) → NoDup (dislikes post) →
  let s := state_of user post in
  let s' := transition s k in
  ∃ post' n m,
    setReaction st user id (Some (kind_name k)) =
      (Res 200 (ReactionJson "Reaction updated successfully" n m
                  (reaction_name s')),
       <[id := post']> st) ∧
    n = length (likes post') ∧ m = length (dislikes post') ∧
    NoDup (likes post') ∧ NoDup (dislikes post') ∧
    n + one_if s Liked = length (likes post) + one_if s' Liked ∧
    m + one_if s Disliked = length (dislikes post) + one_if s' Disliked.
Proof.
  intros Hget Hd Hnl Hnk s s'.
  rewrite (setReaction_found st user id post k Hget). cbn zeta.
  rewrite userReaction_state, state_of_toggle by done.
  eexists _, _, _. split; [reflexivity|]. split; [done|]. split; [done|].
  subst s s'. specialize (Hd user). unfold state_of.
  destruct k; simpl; [rewrite toggle_like | rewrite toggle_dislike];
    destruct (includes user (likes post)) eqn:Hl;
    destruct (includes user (dislikes post)) eqn:Hk;
    membership; try tauto; simpl;
    rewrite ?length_app; simpl;
    repeat split;
    auto using without_NoDup, push_NoDup;
    try (pose proof (length_without user _ Hnl Hl));
    try (pose proof (length_without user _ Hnk Hk));
    lia.
Qed.

(** ** Whose reaction a request can change *)

(** What a request that is not its DELETE makes of a stored post. *)
Lemma perform_shape st m id p :
  ¬ deletes id m → st !! id = Some p →
  ∃ p', (perform st m).2 !! id = Some p' ∧
    (p' = p ∨ (∃ c, p' = set_content c p)
     ∨ (∃ r, p' = set_replies (replies p ++ [r]) p)
     ∨ (∃ type, p' = toggle type (actor m) p)
     ∨ p' = clear (actor m) p).
Proof.
  intros Hdel Hget.
  destruct (decide (target m = id)) as [Hid|Hid]; last first.
  { exists p. rewrite perform_elsewhere by done. auto. }
  destruct m as [user content postType location file new_id now
                |user id' content|user id'|user id' content now
                |user id' type|user id']; simpl in *; subst.
  - destruct (createPost_cases st user content postType location file
                id now)
      as [[msg ->]|[[msg ->]|(c & pt & loc & img & _ & _ & _ & _ & _ & _ & _
                               & _ & Hfresh & _ & _)]]; simpl;
      [eauto..|congruence].
  - destruct (updatePost_cases st user id content)
      as [[msg ->]|[[_ ->]|[(post & _ & _ & ->)
                           |(post & c & Hpost & _ & _ & _ & _ & ->)]]];
      simpl; [eauto..|].
    rewrite lookup_insert_eq. assert (post = p) as -> by congruence. eauto 7.
  - done.
  - destruct (addReply_cases st user id content now)
      as [[msg ->]|[[_ ->]|(post & c & Hpost & _ & _ & _ & ->)]];
      simpl; [eauto..|].
    rewrite lookup_insert_eq. assert (post = p) as -> by congruence. eauto 7.
  - destruct (setReaction_cases st user id type)
      as [[_ ->]|[(_ & _ & ->)|(post & _ & Hpost & ->)]];
      simpl; [eauto..|].
    rewrite lookup_insert_eq. assert (post = p) as -> by congruence. eauto 8.
  - unfold clearReaction. rewrite Hget. simpl. rewrite lookup_insert_eq.
    eauto 8.
Qed.

Lemma state_of_membership v p p' :
  (v ∈ likes p' ↔ v ∈ likes p) → (v ∈ dislikes p' ↔ v ∈ dislikes p) →
  state_of v p' = state_of v p.
Proof.
  intros Hl Hk. unfold state_of, includes.
  by rewrite (bool_decide_ext _ _ Hl), (bool_decide_ext _ _ Hk).
Qed.

(** X8. The reaction of a user on a post changes by that user's requests
    only. Through any run of requests made by other users, with no DELETE
    of the post, the user is in [likes] and in [dislikes] exactly as before,
    and the effective reaction is the same. *)
Theorem reaction_is_ones_own v id ms : ∀ st p,
  Forall (λ m, actor m ≠ v ∧ ¬ deletes id m) ms → st !! id = Some p →
  ∃ p', run st ms !! id = Some p' ∧
    (v ∈ likes p' ↔ v ∈ likes p) ∧ (v ∈ dislikes p' ↔ v ∈ dislikes p) ∧
    state_of v p' = state_of v p.
Proof.
  induction ms as [|m ms IH]; intros st p Hms Hget; simpl.
  - by exists p.
  - apply Forall_cons in Hms as [[Hactor Hdel] Hms].
    destruct (perform_shape st m id p Hdel Hget) as (p1 & Hget1 & Hshape).
    destruct (IH _ _ Hms Hget1) as (p2 & Hget2 & Hl & Hk & _).
    assert ((v ∈ likes p1 ↔ v ∈ likes p) ∧ (v ∈ dislikes p1 ↔ v ∈ dislikes p))
      as [Hl1 Hk1].
    { destruct Hshape as [->|[[c ->]|[[r ->]|[[type ->]| ->]]]];
        [done..| |].
      - by apply toggle_others.
      - by apply clear_others. }
    exists p2. split; [done|].
    assert (Hl2 : v ∈ likes p2 ↔ v ∈ likes p) by (by rewrite Hl).
    assert (Hk2 : v ∈ dislikes p2 ↔ v ∈ dislikes p) by (by rewrite Hk).
    split; [done|]. split; [done|]. by apply state_of_membership.
Qed.

(** ** Clearing, again *)

Lemma without_without u l : without u (without u l) = without u l.
Proof. apply without_absent, not_elem_of_without. Qed.

Lemma clear_clear user post : clear user (clear user post) = clear user post.
Proof. unfold clear. simpl. by rewrite !without_without. Qed.

(** X9. On a post with disjoint likes and dislikes where the user has a
    reaction, asking for that same reaction again with POST /:id/reactions
    (the toggle-off) leaves the very store that DELETE /:id/reactions
    leaves, and the two answers carry the same counts and
    [userReaction: null]; they differ in the message only. A second
    DELETE /:id/reactions changes nothing more. *)
Theorem toggle_off_is_clear st user id post k :
  st !! id = Some post → disjoint_reactions post →
  state_of user post = transition NoReaction k →
  ∃ n m st',
    setReaction st user id (Some (kind_name k)) =
      (Res 200 (ReactionJson "Reaction updated successfully" n m None), st') ∧
    clearReaction st user id =
      (Res 200 (ReactionJson "Reaction removed successfully" n m None), st') ∧
    clearReaction st' user id =
      (Res 200 (ReactionJson "Reaction removed successfully" n m None), st') ∧
    reaction_in st' id user = Some NoReaction.
Proof.
  intros Hget Hd Hs.
  destruct (state_of_spec user post Hd) as (HL & HD & _).
  rewrite (setReaction_found st user id post k Hget). cbn zeta.
  unfold clearReaction at 1. rewrite Hget.
  assert (Htoggle : toggle (Some (kind_name k)) user post = clear user post).
  { destruct k; simpl in *.
    - apply HL in Hs as [Hin Hout]. rewrite toggle_like.
      apply includes_true in Hin as Hin'. rewrite Hin'.
      unfold clear. simpl. by rewrite (without_absent user (dislikes post)).
    - apply HD in Hs as [Hin Hout]. rewrite toggle_dislike.
      apply includes_true in Hin as Hin'. rewrite Hin'.
      unfold clear. simpl. by rewrite (without_absent user (likes post)). }
  rewrite Htoggle.
  destruct (clear_removes user post) as [Hl Hk].
  assert (Hnone : userReaction user (clear user post) = None).
  { unfold userReaction. apply includes_false in Hl, Hk. by rewrite Hl, Hk. }
  rewrite Hnone. eexists _, _, _. split; [reflexivity|]. split; [reflexivity|].
  split.
  - unfold clearReaction. rewrite lookup_insert_eq.
    by rewrite clear_clear, insert_insert_eq.
  - unfold reaction_in. rewrite lookup_insert_eq. simpl.
    f_equal. by apply state_of_absent.
Qed.

(** ** Replies *)

Lemma addReply_added st user id post (c : jsstring) now :
  st !! id = Some post → c ≠ [] → length c ≤ 280 →
  addReply st user id (Some c) now =
    (Res 201 (ReplyJson "Reply added successfully"
                (Some (Reply.mk user c now))),
     <[id := set_replies (replies post ++ [Reply.mk user c now]) post]> st).
Proof.
  intros Hget Hc Hlen.
  destruct (addReply_cases st user id (Some c) now)
    as [[msg Hr]|[[Hnone _]|(post' & c' & Hget' & [= <-] & _ & _ & Hr)]].
  - exfalso. unfold addReply in Hr. rewrite (js_not_Some c Hc) in Hr.
    change (default [] (Some c)) with c in Hr.
    rewrite (not_too_long c Hlen), Hget in Hr.
    unfold reply_ok in Hr. cbn [Reply.content] in Hr.
    rewrite (content_ok_intro c Hc Hlen) in Hr. discriminate.
  - congruence.
  - by assert (post' = post) as -> by congruence.
Qed.

(** X10. Replies accumulate in the order they are posted. After any number
    of reply requests with contents of 1 to 280 code units, by whichever
    users, GET /:id/replies returns the replies the post had, followed by
    the new ones in the order of the requests, each with its author, content
    and time; likes, dislikes and content of the post are as before. *)
Theorem replies_accumulate_in_order id rs : ∀ st post,
  st !! id = Some post →
  Forall (λ r, rr_content r ≠ [] ∧ length (rr_content r) ≤ 280) rs →
  let st' := run st (reply_mutation id <$> rs) in
  st' !! id = Some (set_replies (replies post ++ (reply_of <$> rs)) post) ∧
  listReplies st' id =
    Res 200 (RepliesJson (replies post ++ (reply_of <$> rs))).
Proof.
  induction rs as [|r rs IH]; intros st post Hget Hrs; simpl.
  - unfold listReplies. rewrite app_nil_r, Hget. by destruct post.
  - apply Forall_cons in Hrs as [[Hc Hlen] Hrs].
    rewrite (addReply_added st _ id post _ _ Hget Hc Hlen). cbn [snd].
    specialize (IH (<[id := set_replies (replies post ++ [reply_of r]) post]> st)
                  (set_replies (replies post ++ [reply_of r]) post)
                  (lookup_insert_eq _ _ _) Hrs).
    cbn zeta in IH. cbn [replies set_replies] in IH.
    rewrite <-app_assoc in IH. exact IH.
Qed.

(** ** Editing and deleting *)

(** X11. PUT /:id by the author with a content of 1 to 280 code units is
    answered 200; GET /:id then returns the post with the new content and
    with author, type, location, image, likes, dislikes, replies and
    creation time as they were. *)
Theorem update_then_get st user id post (c : jsstring) :
  st !! id = Some post → author post = user → c ≠ [] → length c ≤ 280 →
  ∃ post' st',
    updatePost st user id (Some c) =
      (Res 200 (PostJson "Post updated successfully" id post'), st') ∧
    getPost st' id = Res 200 (PostDoc id post') ∧
    content post' = c ∧ author post' = author post ∧
    postType post' = postType post ∧ location post' = location post ∧
    imageUrl post' = imageUrl post ∧ likes post' = likes post ∧
    dislikes post' = dislikes post ∧ replies post' = replies post ∧
    createdAt post' = createdAt post.
Proof.
  intros Hget Hauthor Hc Hlen. unfold updatePost.
  rewrite (js_not_Some c Hc). change (default [] (Some c)) with c.
  rewrite (not_too_long c Hlen), Hget, (bool_decide_eq_true_2 _ Hauthor).
  cbn [negb]. rewrite (content_ok_intro c Hc Hlen).
  eexists _, _. split; [reflexivity|].
  unfold getPost. rewrite lookup_insert_eq. by repeat split.
Qed.

(** X12. DELETE /:id by the author is answered 200 and removes the post with
    its replies and reactions: afterwards every route on that id answers
    404, and the collection has one document less. *)
Theorem deleted_post_is_gone st user id post :
  st !! id = Some post → author post = user →
  ∃ st',
    deletePost st user id = (Res 200 (Message "Post deleted successfully"), st') ∧
    st' !! id = None ∧ size st = S (size st') ∧
    getPost st' id = Res 404 (Message "Post not found") ∧
    listReplies st' id = Res 404 (Message "Post not found") ∧
    (∀ who, deletePost st' who id = (Res 404 (Message "Post not found"), st')) ∧
    (∀ who, clearReaction st' who id =
              (Res 404 (Message "Post not found"), st')) ∧
    (∀ who k, setReaction st' who id (Some (kind_name k)) =
                (Res 404 (Message "Post not found"), st')) ∧
    (∀ who (c : jsstring) now, c ≠ [] → length c ≤ 280 →
       updatePost st' who id (Some c) =
         (Res 404 (Message "Post not found"), st') ∧
       addReply st' who id (Some c) now =
         (Res 404 (Message "Post not found"), st')).
Proof.
  intros Hget Hauthor. exists (delete id st).
  assert (Hgone : delete id st !! id = None) by apply lookup_delete_eq.
  split.
  { unfold deletePost. by rewrite Hget, (bool_decide_eq_true_2 _ Hauthor). }
  split; [done|]. split.
  { rewrite <-(insert_delete_id st id post Hget) at 1.
    by rewrite map_size_insert_None. }
  split; [unfold getPost; by rewrite Hgone|].
  split; [unfold listReplies; by rewrite Hgone|].
  split; [intros who; unfold deletePost; by rewrite Hgone|].
  split; [intros who; unfold clearReaction; by rewrite Hgone|].
  split.
  { intros who k. unfold setReaction.
    by rewrite valid_reaction_kind, Hgone. }
  intros who c now Hc Hlen. unfold updatePost, addReply.
  rewrite (js_not_Some c Hc). change (default [] (Some c)) with c.
  by rewrite (not_too_long c Hlen), Hgone.
Qed.

(** ** The stored location *)

Lemma trimStart_split s : ∃ pre, s = pre ++ trimStart s ∧ blank pre.
Proof.
  induction s as [|c s (pre & Hs & Hpre)]; simpl.
  - exists []. split; [done|constructor].
  - destruct (is_whitespace c) eqn:Hc.
    + exists (c :: pre). split; [by rewrite Hs at 1|by constructor].
    + exists []. split; [done|constructor].
Qed.

Lemma trimStart_head s c :
  head (trimStart s) = Some c → is_whitespace c = false.
Proof.
  induction s as [|x s IH]; simpl; [done|].
  destruct (is_whitespace x) eqn:Hx; [done|]. by intros [= <-].
Qed.

Lemma trimEnd_split s : ∃ suf, s = trimEnd s ++ suf ∧ blank suf.
Proof.
  unfold trimEnd. destruct (trimStart_split (reverse s)) as (pre & Hs & Hpre).
  exists (reverse pre). split; [|by apply Forall_reverse].
  by rewrite <-reverse_app, <-Hs, reverse_involutive.
Qed.

Lemma trimEnd_last s c : last (trimEnd s) = Some c → is_whitespace c = false.
Proof. unfold trimEnd. rewrite last_reverse. apply trimStart_head. Qed.

Lemma trimEnd_head s c :
  head (trimEnd s) = Some c → head s = Some c.
Proof.
  destruct (trimEnd_split s) as (suf & Hs & _). intros Hhead.
  rewrite Hs. rewrite head_app. by rewrite Hhead.
Qed.

(** The string left by [trim]: the input without a blank prefix and a
    blank suffix, and with no whitespace at either end. *)
Lemma trim_spec s :
  (∃ pre suf, s = pre ++ trim s ++ suf ∧ blank pre ∧ blank suf) ∧
  (∀ c, head (trim s) = Some c → is_whitespace c = false) ∧
  (∀ c, last (trim s) = Some c → is_whitespace c = false).
Proof.
  unfold trim. split; [|split].
  - destruct (trimStart_split s) as (pre & Hs & Hpre).
    destruct (trimEnd_split (trimStart s)) as (suf & Ht & Hsuf).
    exists pre, suf. by rewrite <-Ht.
  - intros c Hc. apply trimEnd_head in Hc. by apply trimStart_head in Hc.
  - apply trimEnd_last.
Qed.

(** X13. The location of a post that POST / creates is the location of the
    request without the whitespace before and after it: it is not empty and
    neither begins nor ends with whitespace. *)
Theorem created_location_is_trimmed
    st user content postType loc file new_id now post st' :
  createPost st user content postType (Some loc) file new_id now =
    (Res 201 (PostJson "Post created successfully" new_id post), st') →
  st' !! new_id = Some post ∧
  location post ≠ [] ∧
  (∃ pre suf, loc = pre ++ location post ++ suf ∧ blank pre ∧ blank suf) ∧
  (∀ c, head (location post) = Some c → is_whitespace c = false) ∧
  (∀ c, last (location post) = Some c → is_whitespace c = false).
Proof.
  intros Hr.
  destruct (createPost_cases st user content postType (Some loc) file
              new_id now)
    as [[msg Hr']|[[msg Hr']|(c & pt & loc' & img & _ & _ & [= <-] & _ & _ & _
                               & Hloc & _ & _ & _ & Hr')]];
    rewrite Hr' in Hr; try discriminate.
  injection Hr as <- <-. split; [apply lookup_insert_eq|].
  split; [done|]. apply trim_spec.
Qed.

(** ** Pages *)

Lemma posts_of_listPosts `{QueryEngine} st q page limit :
  posts_of (listPosts st q page limit) =
    take (Z.to_nat limit)
      (drop (Z.to_nat ((page - 1) * limit))
         (sort_createdAt_desc (find q st))).
Proof. unfold listPosts, posts_of. simpl. by rewrite Z.mul_1_r. Qed.

Lemma chunks_cover {A} (l : list A) k n :
  concat ((λ p, take k (drop ((p - 1) * k) l)) <$> seq 1 n) = take (n * k) l.
Proof.
  induction n as [|n IH].
  - by rewrite take_0.
  - rewrite seq_S, fmap_app, concat_app, IH. cbn [fmap list_fmap concat].
    rewrite app_nil_r. replace (1 + n - 1) with n by lia.
    replace (S n * k) with (n * k + k) by lia. apply take_take_drop.
Qed.

(** X14. Each page of a listing is a query of its own; [engine p] is
    what the database does for page [p]. For [limit ≥ 1], every page after
    [totalPages] is empty. When the matching posts have pairwise different
    [createdAt], pages 1 to [totalPages], one after the other, are the
    matching posts, each once, newest first. *)
Theorem pages_cover_the_listing (engine : nat → QueryEngine) st q limit :
  (1 ≤ limit)%Z →
  let totalPages := Math_ceil_div (countDocuments q st) limit in
  let page (p : nat) :=
    posts_of (@listPosts (engine p) st q (Z.of_nat p) limit) in
  (∀ p, Z.to_nat totalPages < p → page p = []) ∧
  ((∀ a b, a ∈ find q st → b ∈ find q st →
           createdAt a.2 = createdAt b.2 → a = b) →
   ∃ all,
     all ≡ₚ find q st ∧ NoDup all ∧ StronglySorted newer_first all ∧
     concat (page <$> seq 1 (Z.to_nat totalPages)) = all).
Proof.
  intros Hlimit totalPages page.
  destruct (Math_ceil_div_spec (countDocuments q st) limit) as [Hlow Hhigh];
    [unfold countDocuments; lia|done|]. fold totalPages in Hlow, Hhigh.
  unfold countDocuments in Hlow, Hhigh.
  assert (0 ≤ totalPages)%Z by nia.
  split.
  - intros p Hp. unfold page. rewrite posts_of_listPosts.
    rewrite drop_ge; [by rewrite take_nil|].
    rewrite (@sort_perm (engine p)). nia.
  - intros Hdistinct.
    set (all := @sort_createdAt_desc (engine 0) (find q st)).
    assert (Hperm : all ≡ₚ find q st) by apply sort_perm.
    assert (Hlen : length all = length (find q st)) by by rewrite Hperm.
    exists all. split; [done|]. split; [rewrite Hperm; apply find_NoDup|].
    split; [apply sort_sorted|].
    transitivity
      (concat ((λ p, take (Z.to_nat limit)
                       (drop ((p - 1) * Z.to_nat limit) all))
               <$> seq 1 (Z.to_nat totalPages))).
    + f_equal. apply list_fmap_ext. intros i p Hp.
      apply lookup_seq in Hp as [-> _]. unfold page.
      rewrite posts_of_listPosts.
      rewrite (engines_agree (engine (1 + i)) (engine 0) _ Hdistinct).
      fold all. do 2 f_equal. nia.
    + rewrite chunks_cover. apply take_ge. nia.
Qed.

(** With posts of equal [createdAt] the pages need not fit together: the
    two posts of [tied_store], one per page, with each page served in its
    own order, give post 2 twice and post 1 not at all. *)
Example pages_can_repeat_on_ties :
  fst <$> (posts_of (@listPosts merge_engine tied_store everything 1 1) ++
           posts_of (@listPosts reversed_engine tied_store everything 2 1))
  = [2%N; 2%N].
Proof. vm_compute. reflexivity. Qed.

Lemma find_author_spec uid st d :
  d ∈ find_author uid st ↔ st !! d.1 = Some d.2 ∧ author d.2 = uid.
Proof.
  unfold find_author. rewrite list_elem_of_filter. destruct d as [k p].
  rewrite elem_of_map_to_list. simpl. tauto.
Qed.

(** X15. The profile of a user and the user's posts are two queries, each
    with its own engine. An unknown username is answered 404 by both
    routes. For a known user the profile lists posts of that user only,
    newest first, each once, and [postCount] is the number of posts listed:
    the smaller of 20 and the number of posts the user has. Page 1 of
    GET /:username/posts with a limit of 20 has as many posts, and the very
    same list when the user's posts have pairwise different [createdAt]. *)
Theorem profile_lists_first_page (E1 E2 : QueryEngine) findOne st username :
  match findOne username with
  | None =>
      @getProfile E1 findOne st username =
        UsersRes 404 (UsersMessage "User not found") ∧
      ∀ page limit,
        @listUserPosts E2 findOne st username page limit =
          UsersRes 404 (UsersMessage "User not found")
  | Some (uid, user) =>
      ∃ posts posts' totalPages total,
        @getProfile E1 findOne st username =
          UsersRes 200
            (ProfileJson uid (User.username user) (User.bio user)
               (User.location user) (User.createdAt user) posts
               (length posts)) ∧
        @listUserPosts E2 findOne st username 1 20 =
          UsersRes 200 (UserPostsPage posts' totalPages 1 total) ∧
        total = Z.of_nat (length (find_author uid st)) ∧
        length posts = Nat.min 20 (length (find_author uid st)) ∧
        length posts' = length posts ∧
        (∀ d, d ∈ posts → st !! d.1 = Some d.2 ∧ author d.2 = uid) ∧
        NoDup posts ∧ StronglySorted newer_first posts ∧
        ((∀ a b, a ∈ find_author uid st → b ∈ find_author uid st →
                 createdAt a.2 = createdAt b.2 → a = b) →
         posts' = posts)
  end.
Proof.
  unfold getProfile, listUserPosts.
  destruct (findOne username) as [[uid user]|]; [|done].
  set (all := @sort_createdAt_desc E1 (find_author uid st)).
  set (all' := @sort_createdAt_desc E2 (find_author uid st)).
  assert (Hperm : all ≡ₚ find_author uid st) by apply sort_perm.
  assert (Hperm' : all' ≡ₚ find_author uid st) by apply sort_perm.
  exists (take 20 all), (take 20 all'),
    (Math_ceil_div (Z.of_nat (length (find_author uid st))) 20),
    (Z.of_nat (length (find_author uid st))).
  split; [done|]. split; [done|]. split; [done|].
  split; [by rewrite length_take, Hperm|].
  split; [by rewrite !length_take, Hperm, Hperm'|].
  split.
  { intros d Hd. apply find_author_spec. rewrite <-Hperm.
    by apply (subseteq_take 20 all). }
  split.
  { assert (Hnd : NoDup all).
    { rewrite Hperm. unfold find_author.
      apply NoDup_filter, NoDup_map_to_list. }
    rewrite <-(take_drop 20 all) in Hnd. by apply NoDup_app in Hnd as [? _]. }
  split; [apply StronglySorted_take, sort_sorted|].
  intros Hdistinct. unfold all, all'.
  by rewrite (engines_agree E2 E1 _ Hdistinct).
Qed.

Lemma untied_author_distinct a b :
  a ∈ find_author 1 untied_store → b ∈ find_author 1 untied_store →
  createdAt a.2 = createdAt b.2 → a = b.
Proof.
  assert (Hfind : find_author 1 untied_store
                  = [(2%N, sample_post 8); (1%N, sample_post 7)])
    by (vm_compute; reflexivity).
  rewrite Hfind, !elem_of_cons, !elem_of_nil.
  intros [->|[->|[]]] [->|[->|[]]]; simpl; intros; done.
Qed.

Lemma profile_lists_first_page_witness :
  ∃ posts totalPages total,
    @getProfile merge_engine sample_findOne untied_store (lit "asha") =
      UsersRes 200
        (ProfileJson 1 (lit "asha") (Some (lit "Pune walks"))
           (Some (lit "Pune")) 500 posts (length posts)) ∧
    @listUserPosts reversed_engine sample_findOne untied_store (lit "asha")
                   1 20 =
      UsersRes 200 (UserPostsPage posts totalPages 1 total) ∧
    length posts = 2.
Proof.
  destruct (profile_lists_first_page merge_engine reversed_engine
              sample_findOne untied_store (lit "asha"))
    as (posts & posts' & totalPages & total & Hprofile & Hpage & _ & Hlen
        & _ & _ & _ & _ & Hsame).
  exists posts, totalPages, total.
  rewrite (Hsame untied_author_distinct) in Hpage.
  split; [exact Hprofile|]. split; [exact Hpage|].
  rewrite Hlen. vm_compute. reflexivity.
Defined.

(** X16. PUT /:username answers 403 exactly when the path names another user
    than the authenticated one, whatever the payload, and 400 exactly when
    it names the authenticated user and the bio is longer than 160 code
    units; in both cases the database is not asked. An empty [location] is
    the same request as no [location]. *)
Theorem updateProfile_guards update req_user username bio location :
  let r := updateProfile update req_user username bio location in
  (users_status r = 403%Z ↔ username ≠ User.username req_user.2) ∧
  (users_status r = 400%Z ↔
     username = User.username req_user.2 ∧
     ∃ b : jsstring, bio = Some b ∧ 160 < length b) ∧
  (users_status r = 403%Z ∨ users_status r = 400%Z →
     ∀ update', updateProfile update' req_user username bio location = r) ∧
  updateProfile update req_user username bio (Some []) =
    updateProfile update req_user username bio None.
Proof.
  intros r. subst r. unfold updateProfile.
  destruct (decide (username = User.username req_user.2)) as [Heq|Hne].
  - rewrite (bool_decide_eq_true_2 _ Heq). cbn [negb].
    destruct (negb (js_not bio) && Nat.ltb 160 (length (default [] bio)))
      eqn:Hbio.
    + apply andb_true_iff in Hbio as [Hnot Hlen].
      apply Nat.ltb_lt in Hlen. destruct bio as [b|]; [|done].
      simpl. split; [split; [done|tauto]|]. split; [|done].
      split; [|done]. intros _. split; [done|]. by exists b.
    + assert (Hshort : ¬ ∃ b : jsstring, bio = Some b ∧ 160 < length b).
      { intros (b & -> & Hlen). apply Nat.ltb_lt in Hlen.
        change (default [] (Some b)) with b in Hbio. rewrite Hlen in Hbio.
        destruct b; [simpl in Hlen; discriminate|discriminate]. }
      cbn [js_not].
      destruct (update req_user.1 _) as [[user|]|]; simpl;
        (split; [split; [done|tauto]|]); (split; [split; [done|tauto]|]);
        (split; [intros [|]; done|done]).
  - rewrite (bool_decide_eq_false_2 _ Hne). simpl.
    split; [tauto|]. split; [split; [done|tauto]|]. done.
Qed.

(** ** Who may change what *)

(** X17. The content of a stored post changes only by a PUT /:id of its
    author, and a stored post disappears only by a DELETE /:id of its
    author. *)
Theorem only_the_author_edits_or_deletes st m id p :
  st !! id = Some p →
  (∀ p', (perform st m).2 !! id = Some p' → content p' ≠ content p →
         ∃ c, m = Update (author p) id (Some c) ∧ content p' = c) ∧
  ((perform st m).2 !! id = None → m = Delete (author p) id).
Proof.
  intros Hget.
  destruct (decide (target m = id)) as [Hid|Hid]; last first.
  { rewrite perform_elsewhere by done. rewrite Hget.
    split; [intros p' [= <-]; done|done]. }
  destruct m as [user content postType location file new_id now
                |user id' content|user id'|user id' content now
                |user id' type|user id']; simpl in *; subst.
  - destruct (createPost_cases st user content postType location file
                id now)
      as [[msg ->]|[[msg ->]|(c & pt & loc & img & _ & _ & _ & _ & _ & _ & _
                               & _ & Hfresh & _ & _)]]; simpl;
      [| |congruence]; rewrite Hget;
      (split; [intros p' [= <-]; done|done]).
  - destruct (updatePost_cases st user id content)
      as [[msg ->]|[[_ ->]|[(post & _ & _ & ->)
                           |(post & c & Hpost & Hauthor & -> & _ & _ & ->)]]];
      simpl.
    1-3: rewrite Hget; (split; [intros p' [= <-]; done|done]).
    rewrite lookup_insert_eq. assert (post = p) as -> by congruence.
    split; [|done]. intros p' [= <-] _. exists c. by rewrite Hauthor.
  - destruct (deletePost_cases st user id)
      as [[_ ->]|[(post & _ & _ & ->)|(post & Hpost & Hauthor & ->)]];
      simpl.
    1-2: rewrite Hget; (split; [intros p' [= <-]; done|done]).
    rewrite lookup_delete_eq. split; [done|]. intros _.
    assert (post = p) as -> by congruence. by rewrite Hauthor.
  - destruct (addReply_cases st user id content now)
      as [[msg ->]|[[_ ->]|(post & c & Hpost & _ & _ & _ & ->)]]; simpl.
    1-2: rewrite Hget; (split; [intros p' [= <-]; done|done]).
    rewrite lookup_insert_eq. assert (post = p) as -> by congruence.
    split; [intros p' [= <-]; done|done].
  - destruct (setReaction_cases st user id type)
      as [[_ ->]|[(_ & _ & ->)|(post & _ & Hpost & ->)]]; simpl.
    1-2: rewrite Hget; (split; [intros p' [= <-]; done|done]).
    rewrite lookup_insert_eq. assert (post = p) as -> by congruence.
    split; [|done]. intros p' [= <-] Hc. exfalso. apply Hc.
    unfold toggle.
    by destruct (bool_decide (type = _)), (includes user (likes p)),
      (includes user (dislikes p)).
  - unfold clearReaction. rewrite Hget. simpl. rewrite lookup_insert_eq.
    split; [intros p' [= <-]; done|done].
Qed.

(** ** A new post in the listing *)

Lemma head_of_sorted (l : list (ObjectId * Post)) d :
  StronglySorted newer_first l → d ∈ l →
  (∀ x, x ∈ l → x ≠ d → (createdAt x.2 < createdAt d.2)%Z) →
  head l = Some d.
Proof.
  intros Hs Hd Hnewest. destruct Hs as [|h l Hs Hh]; [by apply elem_of_nil in Hd|].
  simpl. f_equal. destruct (decide (h = d)) as [|Hne]; [done|].
  apply elem_of_cons in Hd as [->|Hd]; [done|].
  rewrite Forall_forall in Hh. specialize (Hh d Hd). unfold newer_first in Hh.
  specialize (Hnewest h ltac:(left) Hne). lia.
Qed.

(** X18. A post created later than every stored post comes first on page 1
    of every listing whose filter it matches. *)
Theorem new_post_heads_the_listing `{QueryEngine}
    st user content postType location file new_id now post st' q limit :
  createPost st user content postType location file new_id now =
    (Res 201 (PostJson "Post created successfully" new_id post), st') →
  (∀ id p, st !! id = Some p → (createdAt p < now)%Z) →
  matches q (new_id, post) = true → (1 ≤ limit)%Z →
  head (posts_of (listPosts st' q 1 limit)) = Some (new_id, post).
Proof.
  intros Hr Hold Hmatch Hlimit.
  destruct (createPost_cases st user content postType location file
              new_id now)
    as [[msg Hr']|[[msg Hr']|(c & pt & loc & img & _ & _ & _ & _ & _ & _
                               & _ & _ & Hfresh & _ & Hr')]];
    rewrite Hr' in Hr; try discriminate.
  injection Hr as <- <-.
  set (post := new_Post user c pt loc img now) in *.
  rewrite posts_of_listPosts.
  change (Z.to_nat ((1 - 1) * limit)) with 0. rewrite drop_0.
  set (all := sort_createdAt_desc (find q (<[new_id := post]> st))).
  assert (Hhead : head all = Some (new_id, post)).
  { apply head_of_sorted.
    - apply sort_sorted.
    - unfold all. rewrite sort_perm. apply find_spec. simpl.
      by rewrite lookup_insert_eq.
    - intros [k p] Hx Hne. unfold all in Hx. rewrite sort_perm in Hx.
      apply find_spec in Hx as [Hx _]. simpl in *.
      rewrite lookup_insert in Hx. case_decide as Hk.
      + exfalso. apply Hne. by injection Hx as <-; subst.
      + by apply Hold in Hx. }
  destruct all as [|h all']; [done|]. simpl in *.
  destruct (Z.to_nat limit) eqn:Hn; [lia|done].
Qed.

(** ** The properties above on the sample data *)

Lemma visitors_do_not_delete :
  Forall (λ m, actor m ≠ 5%N ∧ ¬ deletes 9 m) visitors_requests.
Proof. repeat constructor; simpl; try discriminate; tauto. Qed.

Lemma failure_changes_nothing_witness :
  (perform liked_store (Update 2 9 (Some (lit "Mine now")))).2 = liked_store.
Proof.
  apply (failure_changes_nothing liked_store
           (Update 2 9 (Some (lit "Mine now")))); discriminate.
Defined.

Lemma other_documents_untouched_witness :
  (perform tied_store (React 5 1 (Some (lit "like")))).2 !! 2%N
  = tied_store !! 2%N.
Proof.
  apply (other_documents_untouched tied_store
           (React 5 1 (Some (lit "like"))) 2).
  discriminate.
Defined.

Lemma stored_post_keeps_identity_witness :
  ∃ p', run liked_store visitors_requests !! 9%N = Some p' ∧
        later_version liked_post p'.
Proof.
  apply (stored_post_keeps_identity 9 visitors_requests liked_store liked_post).
  - eapply Forall_impl; [apply visitors_do_not_delete|]. by intros m [_ H].
  - reflexivity.
Defined.

Lemma liked_post_NoDup : NoDup (likes liked_post) ∧ NoDup (dislikes liked_post).
Proof. split; simpl; [apply NoDup_singleton|apply NoDup_nil_2]. Qed.

Lemma reaction_counts_witness :
  ∃ post' n m,
    setReaction liked_store 5 9 (Some (lit "dislike")) =
      (Res 200 (ReactionJson "Reaction updated successfully" n m
                  (Some (lit "dislike"))),
       <[9%N := post']> liked_store) ∧
    n = length (likes post') ∧ m = length (dislikes post') ∧
    NoDup (likes post') ∧ NoDup (dislikes post') ∧
    n + 1 = 1 + 0 ∧ m + 0 = 0 + 1.
Proof.
  exact (reaction_counts liked_store 5 9 liked_post Dislike eq_refl
           liked_post_disjoint (proj1 liked_post_NoDup)
           (proj2 liked_post_NoDup)).
Defined.

Lemma reaction_is_ones_own_witness :
  ∃ p', run liked_store visitors_requests !! 9%N = Some p' ∧
    (5%N ∈ likes p' ↔ 5%N ∈ likes liked_post) ∧
    (5%N ∈ dislikes p' ↔ 5%N ∈ dislikes liked_post) ∧
    state_of 5 p' = state_of 5 liked_post.
Proof.
  exact (reaction_is_ones_own 5 9 visitors_requests liked_store liked_post
           visitors_do_not_delete eq_refl).
Defined.

Lemma toggle_off_is_clear_witness :
  ∃ n m st',
    setReaction liked_store 5 9 (Some (lit "like")) =
      (Res 200 (ReactionJson "Reaction updated successfully" n m None), st') ∧
    clearReaction liked_store 5 9 =
      (Res 200 (ReactionJson "Reaction removed successfully" n m None), st') ∧
    clearReaction st' 5 9 =
      (Res 200 (ReactionJson "Reaction removed successfully" n m None), st') ∧
    reaction_in st' 9 5 = Some NoReaction.
Proof.
  exact (toggle_off_is_clear liked_store 5 9 liked_post Like eq_refl
           liked_post_disjoint eq_refl).
Defined.

Lemma three_replies_pass :
  Forall (λ r, rr_content r ≠ [] ∧ length (rr_content r) ≤ 280) three_replies.
Proof. repeat constructor; simpl; try discriminate; lia. Qed.

Lemma replies_accumulate_in_order_witness :
  let st' := run liked_store (reply_mutation 9 <$> three_replies) in
  st' !! 9%N =
    Some (set_replies (replies liked_post ++ (reply_of <$> three_replies))
            liked_post) ∧
  listReplies st' 9 =
    Res 200 (RepliesJson (replies liked_post ++ (reply_of <$> three_replies))).
Proof.
  exact (replies_accumulate_in_order 9 three_replies liked_store liked_post
           eq_refl three_replies_pass).
Defined.

Lemma update_then_get_witness :
  ∃ post' st',
    updatePost liked_store 1 9 (Some (lit "Street fair moved to Monday")) =
      (Res 200 (PostJson "Post updated successfully" 9 post'), st') ∧
    getPost st' 9 = Res 200 (PostDoc 9 post') ∧
    content post' = lit "Street fair moved to Monday" ∧
    author post' = author liked_post ∧
    postType post' = postType liked_post ∧
    location post' = location liked_post ∧
    imageUrl post' = imageUrl liked_post ∧ likes post' = likes liked_post ∧
    dislikes post' = dislikes liked_post ∧
    replies post' = replies liked_post ∧
    createdAt post' = createdAt liked_post.
Proof.
  apply (update_then_get liked_store 1 9 liked_post
           (lit "Street fair moved to Monday"));
    [reflexivity | reflexivity | discriminate | vm_compute; lia].
Defined.

Lemma deleted_post_is_gone_witness :
  ∃ st',
    deletePost liked_store 1 9 =
      (Res 200 (Message "Post deleted successfully"), st') ∧
    st' !! 9%N = None ∧ size liked_store = S (size st') ∧
    getPost st' 9 = Res 404 (Message "Post not found") ∧
    listReplies st' 9 = Res 404 (Message "Post not found") ∧
    (∀ who, deletePost st' who 9 = (Res 404 (Message "Post not found"), st')) ∧
    (∀ who, clearReaction st' who 9 =
              (Res 404 (Message "Post not found"), st')) ∧
    (∀ who k, setReaction st' who 9 (Some (kind_name k)) =
                (Res 404 (Message "Post not found"), st')) ∧
    (∀ who (c : jsstring) now, c ≠ [] → length c ≤ 280 →
       updatePost st' who 9 (Some c) =
         (Res 404 (Message "Post not found"), st') ∧
       addReply st' who 9 (Some c) now =
         (Res 404 (Message "Post not found"), st')).
Proof.
  exact (deleted_post_is_gone liked_store 1 9 liked_post eq_refl eq_refl).
Defined.

Lemma created_location_is_trimmed_witness :
  let loc := lit "  Pune " in
  let post := new_Post 1 (lit "Lost keys") (lit "help") loc None 1000 in
  (<[7%N := post]> ∅ : gmap N Post) !! 7%N = Some post ∧
  location post ≠ [] ∧
  (∃ pre suf, loc = pre ++ location post ++ suf ∧ blank pre ∧ blank suf) ∧
  (∀ c, head (location post) = Some c → is_whitespace c = false) ∧
  (∀ c, last (location post) = Some c → is_whitespace c = false).
Proof.
  apply (created_location_is_trimmed ∅ 1 (Some (lit "Lost keys"))
           (Some (lit "help")) (lit "  Pune ") NoFile 7 1000).
  vm_compute. reflexivity.
Defined.

Lemma pages_cover_the_listing_witness :
  let engine (p : nat) :=
    if Nat.even p then merge_engine else reversed_engine in
  let page (p : nat) :=
    posts_of (@listPosts (engine p) untied_store everything (Z.of_nat p) 1) in
  (∀ p, 2 < p → page p = []) ∧
  ∃ all,
    all ≡ₚ find everything untied_store ∧ NoDup all ∧
    StronglySorted newer_first all ∧
    concat (page <$> seq 1 2) = all.
Proof.
  destruct (pages_cover_the_listing
              (λ p, if Nat.even p then merge_engine else reversed_engine)
              untied_store everything 1) as [Hempty Hcover]; [lia|].
  split; [exact Hempty|exact (Hcover untied_store_distinct)].
Defined.

Lemma only_the_author_edits_or_deletes_witness :
  (∀ p', (perform liked_store (Delete 1 9)).2 !! 9%N = Some p' →
         content p' ≠ content liked_post →
         ∃ c, Delete 1 9 = Update (author liked_post) 9 (Some c) ∧
              content p' = c) ∧
  ((perform liked_store (Delete 1 9)).2 !! 9%N = None →
   Delete 1 9 = Delete (author liked_post) 9).
Proof.
  exact (only_the_author_edits_or_deletes liked_store (Delete 1 9) 9
           liked_post eq_refl).
Defined.

Lemma untied_store_is_old id p :
  untied_store !! id = Some p → (createdAt p < 1000)%Z.
Proof.
  unfold untied_store. intros H.
  apply lookup_insert_Some in H as [[_ <-]|[_ H]]; [simpl; lia|].
  apply lookup_singleton_Some in H as [_ <-]. simpl. lia.
Qed.

Lemma new_post_heads_the_listing_witness :
  let post := new_Post 1 (lit "Lost keys") (lit "help") (lit "Pune") None 1000 in
  head (posts_of (@listPosts merge_engine (<[7%N := post]> untied_store)
                    everything 1 20))
  = Some (7%N, post).
Proof.
  apply (@new_post_heads_the_listing merge_engine untied_store 1
           (Some (lit "Lost keys")) (Some (lit "help")) (Some (lit "Pune"))
           NoFile 7 1000).
  - vm_compute. reflexivity.
  - apply untied_store_is_old.
  - reflexivity.
  - lia.
Defined.
